(** * 7DTD_DBOT: the chat watcher of [main.py]

    A shallow embedding of the tailing / parsing / dispatch pipeline of
    [main.py]: the chat-line regular expression and the extraction done in
    [TailWorker.run], the platform classification, template rendering and
    webhook dispatch of [MainWindow.on_new_chat] and [MainWindow.post_webhook],
    and the start guard of [MainWindow.start_watching].

    Python [str] values are sequences of Unicode code points, so a string is
    a list of code points ([N]); [py] turns an ASCII literal into one. *)

From Stdlib Require Import List NArith ZArith Bool Lia String Ascii.
From Stdlib Require Import Numbers.DecimalString.
Import ListNotations.

Set Implicit Arguments.

(** ** Python strings *)

Module PyStr.

Definition char := N.
Definition pystr := list char.

(** An ASCII literal as a Python string. *)
Definition py (s : string) : pystr :=
  List.map N_of_ascii (list_ascii_of_string s).

Definition NEWLINE : char := 10%N.
Definition SPACE : char := 32%N.
Definition DQUOTE : char := 34%N.
Definition QUOTE : char := 39%N.
Definition COMMA : char := 44%N.
Definition LBRACE : char := 123%N.

Fixpoint mem (c : char) (cs : list char) : bool :=
  match cs with
  | [] => false
  | d :: cs' => N.eqb c d || mem c cs'
  end.

(** [s.startswith(p)] *)
Fixpoint startswith (p s : pystr) : bool :=
  match p with
  | [] => true
  | x :: p' =>
      match s with
      | [] => false
      | y :: s' => N.eqb x y && startswith p' s'
      end
  end.

(** [p in s] (substring test) *)
Fixpoint contains (p s : pystr) : bool :=
  startswith p s ||
  match s with
  | [] => false
  | _ :: s' => contains p s'
  end.

(** Number of positions of [s] at which [p] occurs. *)
Fixpoint occurrences (p s : pystr) : nat :=
  match s with
  | [] => 0
  | _ :: s' => (if startswith p s then 1 else 0) + occurrences p s'
  end.

(** [s.lstrip(chars)], [s.rstrip(chars)] and [s.strip(chars)]: the
    characters of [chars] are removed from the edges. *)
Fixpoint lstrip_chars (chars : list char) (s : pystr) : pystr :=
  match s with
  | [] => []
  | c :: s' => if mem c chars then lstrip_chars chars s' else s
  end.

Definition rstrip_chars (chars : list char) (s : pystr) : pystr :=
  rev (lstrip_chars chars (rev s)).

Definition strip_chars (chars : list char) (s : pystr) : pystr :=
  rstrip_chars chars (lstrip_chars chars s).

(** The code points for which [str.isspace] holds; [s.strip()] without an
    argument removes these. *)
Definition isspace (c : char) : bool :=
  ((9 <=? c) && (c <=? 13) || (28 <=? c) && (c <=? 32) ||
   (c =? 133) || (c =? 160) || (c =? 5760) ||
   (8192 <=? c) && (c <=? 8202) || (c =? 8232) || (c =? 8233) ||
   (c =? 8239) || (c =? 8287) || (c =? 12288))%N.

Fixpoint lstrip (s : pystr) : pystr :=
  match s with
  | [] => []
  | c :: s' => if isspace c then lstrip s' else s
  end.

Definition strip (s : pystr) : pystr := rev (lstrip (rev (lstrip s))).

(** [s.replace(old, new)]: occurrences of [old] are found from the left,
    without overlap, and the inserted text is not scanned again.  [skip]
    counts the characters of a replaced occurrence still to be dropped. *)
Fixpoint replace_from (old new : pystr) (skip : nat) (s : pystr) : pystr :=
  match s with
  | [] => []
  | c :: s' =>
      match skip with
      | S k => replace_from old new k s'
      | O =>
          if startswith old s
          then new ++ replace_from old new (List.length old - 1) s'
          else c :: replace_from old new 0 s'
      end
  end.

Definition replace (old new s : pystr) : pystr :=
  match old with
  | [] => new ++ flat_map (fun c => c :: new) s
  | _ :: _ => replace_from old new 0 s
  end.

(** [str(n)] for an [int]. *)
Definition str_of_int (n : Z) : pystr :=
  py (NilEmpty.string_of_int (Z.to_int n)).

End PyStr.
Import PyStr.

(** ** The regular expression engine

    [CHAT_LINE_RE] uses literal characters, repetitions of a character class
    (greedy [X+], lazy [X*?]), capturing groups around a repetition and the
    anchor [$].  A pattern is the sequence of these nodes; the non-capturing
    group [(?:...)] of the source carries no quantifier and is therefore the
    plain sequence of its nodes.  Matching is Python's backtracking search:
    a greedy repetition tries the longest run first, a lazy one the shortest,
    and [search] tries the start positions from the left. *)

Module Re.

Inductive charset :=
| Dot                       (* [.]: any character but a newline *)
| NotIn (cs : list char).   (* [[^...]] *)

Definition in_charset (cs : charset) (c : char) : bool :=
  match cs with
  | Dot => negb (N.eqb c NEWLINE)
  | NotIn l => negb (mem c l)
  end.

Inductive node :=
| Lit (c : char)
| Repeat (capture greedy : bool) (min : nat) (cs : charset)
| EndAnchor.

Definition pattern := list node.

(** [$] matches at the end of the string and just before a final newline. *)
Definition at_end (s : pystr) : bool :=
  match s with
  | [] => true
  | [c] => N.eqb c NEWLINE
  | _ => false
  end.

Section Repeat.
Variable A : Type.
Variable greedy : bool.
Variable cs : charset.
(** what follows the repetition: given the run consumed and the rest *)
Variable k : pystr -> pystr -> option A.

(** [need] characters are still required; [acc] is the run consumed so
    far, in reverse. *)
Fixpoint repeat_match (need : nat) (acc : pystr) (s : pystr) : option A :=
  let stop := match need with O => k (rev acc) s | S _ => None end in
  let more :=
    match s with
    | c :: s' =>
        if in_charset cs c then repeat_match (pred need) (c :: acc) s'
        else None
    | [] => None
    end in
  if greedy
  then match more with Some r => Some r | None => stop end
  else match stop with Some r => Some r | None => more end.
End Repeat.

(** A match of the whole pattern at the start of [s]: the captured groups,
    in the order of their opening parentheses. *)
Fixpoint match_here (p : pattern) (s : pystr) : option (list pystr) :=
  match p with
  | [] => Some []
  | Lit c :: p' =>
      match s with
      | d :: s' => if N.eqb c d then match_here p' s' else None
      | [] => None
      end
  | Repeat capture greedy min cs :: p' =>
      repeat_match greedy cs
        (fun run rest =>
           match match_here p' rest with
           | Some groups => Some (if capture then run :: groups else groups)
           | None => None
           end)
        min [] s
  | EndAnchor :: p' => if at_end s then match_here p' s else None
  end.

(** [pattern.search(s)] *)
Fixpoint search (p : pattern) (s : pystr) : option (list pystr) :=
  match match_here p s with
  | Some groups => Some groups
  | None =>
      match s with
      | [] => None
      | _ :: s' => search p s'
      end
  end.

Definition lits (s : string) : pattern := List.map Lit (py s).

End Re.
Import Re.

(** ** [main.py] *)

(** [CHAT_LINE_RE]: the text [Chat (from '], group 1 [[^']+], a quote, the
    group [(?:,.*?)] (a comma and a lazy run of any characters; the group has
    no quantifier of its own), the text [): '], group 2 [[^']+], the text
    [': ], group 3 [.+] and the anchor [$]. *)
Definition CHAT_LINE_RE : pattern :=
  lits "Chat (from '" ++ [Repeat true true 1 (NotIn [QUOTE])] ++ lits "'" ++
  (lits "," ++ [Repeat false false 0 Dot]) ++
  lits "): '" ++ [Repeat true true 1 (NotIn [QUOTE])] ++ lits "': " ++
  [Repeat true true 1 Dot; EndAnchor].

Record ChatEvent := mkChat {
  platformId : pystr;
  user : pystr;
  message : pystr
}.

(** The argument of [strip] in [TailWorker.run]: a space, a single quote
    and a double quote. *)
Definition MESSAGE_EDGE : list char := [SPACE; QUOTE; DQUOTE].

(** [TailWorker.run], the match of one line: [m = CHAT_LINE_RE.search(line)]
    and the three groups, the third one stripped. *)
Definition chat_of_line (line : pystr) : option ChatEvent :=
  match search CHAT_LINE_RE line with
  | Some [g1; g2; g3] => Some (mkChat g1 g2 (strip_chars MESSAGE_EDGE g3))
  | _ => None
  end.

(** [TailWorker.run], one iteration that read the text [raw]: the signals
    emitted, oldest first. *)
Inductive signal :=
| SigLog (text : pystr)
| SigNewChat (platform_id user message : pystr).

Definition run_line (raw : pystr) : list signal :=
  let line := strip raw in
  match line with
  | [] => []
  | _ :: _ =>
      SigLog (py "Linea detectada: " ++ line) ::
      match chat_of_line line with
      | Some (mkChat platform_id user message) =>
          [ SigLog (py "Chat parseado -> platform: " ++ platform_id ++
                    py ", user: " ++ user ++ py ", message: " ++ message);
            SigNewChat platform_id user message ]
      | None => []
      end
  end.

(** *** Platform classification ([on_new_chat], the [startswith] chain) *)

Definition platform_label (platform_id : pystr) : pystr :=
  if startswith (py "Xbox_") platform_id then py "Xbox"
  else if startswith (py "PSN_") platform_id then py "PSN"
  else if startswith (py "Steam_") platform_id then py "Steam"
  else platform_id.

(** *** Template rendering ([on_new_chat], the [replace] chain) *)

(** [DEFAULT_CONFIG['general']['message_template']]; its first character is
    U+1F9DF and the dash is U+2014. *)
Definition DEFAULT_TEMPLATE : pystr :=
  [129503%N] ++ py " {platform} " ++ [8212%N] ++ py " **{user}**: {message}".

Definition substitute (template platform user message : pystr) : pystr :=
  replace (py "{message}") message
    (replace (py "{user}") user
       (replace (py "{platform}") platform template)).

(** [template = self.template_edit.toPlainText() or DEFAULT...] followed by
    the three replacements. *)
Definition render (template_text platform user message : pystr) : pystr :=
  let template :=
    match template_text with
    | [] => DEFAULT_TEMPLATE
    | _ :: _ => template_text
    end in
  substitute template platform user message.

(** *** Exceptions and effects *)

Inductive exc_class :=
| RequestsTimeout | RequestsConnectionError | RequestsOther
| ValueError | OtherException
| KeyboardInterrupt | SystemExit.

(** [issubclass(c, Exception)]: the last two derive from [BaseException]
    only. *)
Definition derives_Exception (c : exc_class) : bool :=
  match c with
  | KeyboardInterrupt | SystemExit => false
  | _ => true
  end.

Record exn := mkExn { exn_class : exc_class; exn_str : pystr }.

Inductive result (A : Type) :=
| Ok (a : A)
| Raised (e : exn).
Arguments Ok {A} a.
Arguments Raised {A} e.

(** A computation over a state [S] that returns or raises. *)
Definition M (S A : Type) : Type := S -> result A * S.

Definition ret {S A} (a : A) : M S A := fun st => (Ok a, st).
Definition raise {S A} (e : exn) : M S A := fun st => (Raised e, st).
Definition bind {S A B} (c : M S A) (k : A -> M S B) : M S B :=
  fun st =>
    match c st with
    | (Ok a, st') => k a st'
    | (Raised e, st') => (Raised e, st')
    end.
Definition gets {S A} (f : S -> A) : M S A := fun st => (Ok (f st), st).
Definition modify {S} (f : S -> S) : M S unit := fun st => (Ok tt, f st).

(** [try: body  except Exception as e: handler e] *)
Definition try_except_Exception {S A} (body : M S A) (handler : exn -> M S A)
  : M S A :=
  fun st =>
    match body st with
    | (Ok a, st') => (Ok a, st')
    | (Raised e, st') =>
        if derives_Exception (exn_class e) then handler e st'
        else (Raised e, st')
    end.

Declare Scope py_scope.
Delimit Scope py_scope with py.
Notation "x <- c ;; k" := (bind c (fun x => k))
  (at level 61, c at next level, right associativity) : py_scope.
Notation "c ;; k" := (bind c (fun _ => k))
  (at level 61, right associativity) : py_scope.
Open Scope py_scope.

(** *** [MainWindow] *)

Inductive http_reply :=
| Response (status_code : Z) (text : pystr)
| Fails (e : exn).

Section MainWindow.

(** The value of [float(...)]; [None] when [float] raises [ValueError]. *)
Variable PyFloat : Type.
Variable float_of_str : pystr -> option PyFloat.
(** [os.path.exists] at the time of the call. *)
Variable os_path_exists : pystr -> bool.
(** What [requests.post(url, json={content: ...}, timeout=8)] does, given
    the posts made before: a response, or an exception (a timeout is
    [RequestsTimeout]). *)
Variable requests_post : list (pystr * pystr) -> pystr -> pystr -> http_reply.

Record TailWorker := mkWorker {
  filepath : pystr;
  poll_interval : PyFloat
}.

(** The window: its widgets and fields, and what it has done to the
    outside (threads started, requests posted), oldest first.  [app_log]
    holds the texts given to [append_log]; the time stamp that the widget
    puts in front of each is left out. *)
Record MainWindow := mkWindow {
  file_edit : pystr;
  webhook_edit : pystr;
  template_edit : pystr;
  start_btn : pystr;
  config_poll_interval : option pystr;
  tail_worker : option TailWorker;
  worker_isRunning : bool;
  app_log : list pystr;
  threads_started : list TailWorker;
  http_posts : list (pystr * pystr)
}.

Definition append_log (text : pystr) : M MainWindow unit :=
  modify (fun w =>
    mkWindow (file_edit w) (webhook_edit w) (template_edit w) (start_btn w)
      (config_poll_interval w) (tail_worker w) (worker_isRunning w)
      (app_log w ++ [text]) (threads_started w) (http_posts w)).

Definition set_start_btn (text : pystr) : M MainWindow unit :=
  modify (fun w =>
    mkWindow (file_edit w) (webhook_edit w) (template_edit w) text
      (config_poll_interval w) (tail_worker w) (worker_isRunning w)
      (app_log w) (threads_started w) (http_posts w)).

Definition set_tail_worker (t : option TailWorker) : M MainWindow unit :=
  modify (fun w =>
    mkWindow (file_edit w) (webhook_edit w) (template_edit w) (start_btn w)
      (config_poll_interval w) t (worker_isRunning w)
      (app_log w) (threads_started w) (http_posts w)).

(** [self.tail_worker.start()] *)
Definition start_thread (t : TailWorker) : M MainWindow unit :=
  modify (fun w =>
    mkWindow (file_edit w) (webhook_edit w) (template_edit w) (start_btn w)
      (config_poll_interval w) (tail_worker w) true
      (app_log w) (threads_started w ++ [t]) (http_posts w)).

(** [self.tail_worker.stop()]: the flag is cleared and the thread is
    waited for; the window then drops the worker whatever the wait gave. *)
Definition stop_thread : M MainWindow unit :=
  modify (fun w =>
    mkWindow (file_edit w) (webhook_edit w) (template_edit w) (start_btn w)
      (config_poll_interval w) (tail_worker w) false
      (app_log w) (threads_started w) (http_posts w)).

(** [requests.post]: the call is recorded; its response (status code and
    text) is returned, or its exception raised. *)
Definition do_requests_post (url content : pystr)
  : M MainWindow (Z * pystr) :=
  fun w =>
    let w' :=
      mkWindow (file_edit w) (webhook_edit w) (template_edit w) (start_btn w)
        (config_poll_interval w) (tail_worker w) (worker_isRunning w)
        (app_log w) (threads_started w) (http_posts w ++ [(url, content)]) in
    match requests_post (http_posts w) url content with
    | Response sc body => (Ok (sc, body), w')
    | Fails e => (Raised e, w')
    end.

(** [float(s)] *)
Definition float (s : pystr) : M MainWindow PyFloat :=
  match float_of_str s with
  | Some x => ret x
  | None => raise (mkExn ValueError (py "could not convert string to float"))
  end.

(** The two shapes of what [post_webhook] returns. *)
Definition Delivered : bool * pystr := (true, []).
Definition Failed (reason : pystr) : bool * pystr := (false, reason).

Definition post_webhook (webhook_url content : pystr)
  : M MainWindow (bool * pystr) :=
  try_except_Exception
    (r <- do_requests_post webhook_url content ;;
     let '(sc, body) := r in
     if (sc =? 200)%Z || (sc =? 204)%Z
     then ret Delivered
     else ret (Failed (py "HTTP " ++ str_of_int sc ++ py " - " ++ body)))
    (fun e => ret (Failed (exn_str e))).

Definition LOG_SENT : pystr := py "Mensaje enviado correctamente al webhook.".
Definition LOG_SEND_ERROR : pystr := py "Error al enviar webhook: ".
(** with U+00ED, the dash U+2014 and U+00F3 *)
Definition LOG_EMPTY_WEBHOOK : pystr :=
  py "Webhook vac" ++ [237%N] ++ py "o " ++ [8212%N] ++ py " no se envi" ++
  [243%N] ++ py " el mensaje.".
Definition LOG_PREPARING : pystr := py "Preparando env" ++ [237%N] ++ py "o: ".
Definition LOG_BAD_PATH : pystr :=
  py "Ruta de archivo inv" ++ [225%N] ++ py "lida o no existe.".

Definition on_new_chat (platform_id user message : pystr)
  : M MainWindow unit :=
  let label := platform_label platform_id in
  template <- gets template_edit ;;
  let content := render template label user message in
  append_log (LOG_PREPARING ++ content) ;;
  webhook_text <- gets webhook_edit ;;
  let webhook := strip webhook_text in
  match webhook with
  | _ :: _ =>
      r <- post_webhook webhook content ;;
      if fst r then append_log LOG_SENT
      else append_log (LOG_SEND_ERROR ++ snd r)
  | [] => append_log LOG_EMPTY_WEBHOOK
  end.

Definition start_watching : M MainWindow unit :=
  path <- gets file_edit ;;
  if match path with [] => true | _ :: _ => false end
     || negb (os_path_exists path)
  then append_log LOG_BAD_PATH
  else
    poll_text <- gets config_poll_interval ;;
    poll <- float (match poll_text with Some s => s | None => py "1" end) ;;
    let worker := mkWorker path poll in
    set_tail_worker (Some worker) ;;
    start_thread worker ;;
    set_start_btn (py "Detener vigilancia") ;;
    append_log (py "Vigilancia iniciada.").

Definition stop_watching : M MainWindow unit :=
  t <- gets tail_worker ;;
  match t with
  | Some _ =>
      stop_thread ;;
      set_tail_worker None ;;
      set_start_btn (py "Iniciar vigilancia") ;;
      append_log (py "Vigilancia detenida.")
  | None => ret tt
  end.

Definition toggle_watch : M MainWindow unit :=
  t <- gets tail_worker ;;
  running <- gets worker_isRunning ;;
  match t with
  | Some _ => if running then stop_watching else start_watching
  | None => start_watching
  end.

(** The session is running when the window holds a worker whose thread
    runs, and idle otherwise (the test of [toggle_watch]). *)
Inductive SessionState := Idle | Running.

Definition session_state (w : MainWindow) : SessionState :=
  match tail_worker w with
  | Some _ => if worker_isRunning w then Running else Idle
  | None => Idle
  end.

End MainWindow.

(** *** [MainWindow.test_webhook] *)

Section TestWebhook.

Variable PyFloat : Type.
Variable requests_post : list (pystr * pystr) -> pystr -> pystr -> http_reply.

Definition LOG_TEST_EMPTY : pystr := py "Introduce un webhook para probar.".
Definition LOG_TEST_SENT : pystr :=
  py "Prueba de webhook enviada correctamente.".
Definition LOG_TEST_ERROR : pystr := py "Error en prueba de webhook: ".

(** The text posted by the test; it starts with U+1F514 and ends with
    U+1F9DF. *)
Definition TEST_TEXT : pystr :=
  [128276%N] ++ py " Prueba de webhook desde Webhook Chat Watcher " ++
  [129503%N].

Definition test_webhook : M (MainWindow PyFloat) unit :=
  webhook_text <- gets (@webhook_edit PyFloat) ;;
  let webhook := strip webhook_text in
  match webhook with
  | [] => append_log LOG_TEST_EMPTY
  | _ :: _ =>
      r <- post_webhook requests_post webhook TEST_TEXT ;;
      if fst r then append_log LOG_TEST_SENT
      else append_log (LOG_TEST_ERROR ++ snd r)
  end.

End TestWebhook.

(** *** The line source ([TailWorker.run])

    The log file as the text layer of Python presents it (decoded, line
    ends as newline characters), with the position of the reader. *)

Record textfile := mkFile {
  file_text : pystr;
  file_pos : nat
}.

(** [f.seek(0, os.SEEK_END)] *)
Definition seek_end (f : textfile) : textfile :=
  mkFile (file_text f) (List.length (file_text f)).

(** The text up to and including the first newline, or all of it when
    there is none. *)
Fixpoint take_line (s : pystr) : pystr :=
  match s with
  | [] => []
  | c :: s' => if N.eqb c NEWLINE then [c] else c :: take_line s'
  end.

(** [f.readline()]: empty at the end of the file; a last line without
    newline is returned as it stands. *)
Definition readline (f : textfile) : pystr * textfile :=
  let line := take_line (skipn (file_pos f) (file_text f)) in
  (line, mkFile (file_text f) (file_pos f + List.length line)).

(** The writer of the log appends [data]. *)
Definition appended (data : pystr) (f : textfile) : textfile :=
  mkFile (file_text f ++ data) (file_pos f).

(** What one iteration of the loop meets: the data the writer has appended
    since the iteration before (possibly none), or a failing read. *)
Inductive tick :=
| Appended (data : pystr)
| ReadFails (e : exn).

Definition LOG_TAIL_ERROR : pystr := py "Error en TailWorker: ".

(** The handler [except Exception as e] of [run]; an exception outside
    [Exception] ends the thread without a signal. *)
Definition tail_error (e : exn) : list signal :=
  if derives_Exception (exn_class e) then [SigLog (LOG_TAIL_ERROR ++ exn_str e)]
  else [].

(** [while self._running: ...]: one tick for each iteration that found the
    flag set; the loop ends when the ticks do.  An empty read calls
    [time.sleep(self.poll_interval)] and emits nothing; [sleep] is what that
    call does: it returns ([None]), or it raises because it does not accept
    the interval (a negative one, for instance).  The interval is fixed for
    the worker, so the call does the same each time. *)
Fixpoint tail_loop (sleep : option exn) (f : textfile) (ticks : list tick)
  : list signal :=
  match ticks with
  | [] => []
  | Appended data :: ticks' =>
      let (line, f') := readline (appended data f) in
      match line with
      | [] =>
          match sleep with
          | None => tail_loop sleep f' ticks'
          | Some e => tail_error e
          end
      | _ :: _ => run_line line ++ tail_loop sleep f' ticks'
      end
  | ReadFails e :: _ => tail_error e
  end.

(** What [open] gives: the file with its text, [FileNotFoundError], or
    another exception. *)
Inductive open_result :=
| Opened (text : pystr)
| OpenNotFound
| OpenFails (e : exn).

Definition TailWorker_run (sleep : option exn) (path : pystr)
  (o : open_result) (ticks : list tick) : list signal :=
  SigLog (py "Iniciando vigilancia de: " ++ path) ::
  match o with
  | Opened text => tail_loop sleep (seek_end (mkFile text 0)) ticks
  | OpenNotFound => [SigLog (py "El archivo no fue encontrado: " ++ path)]
  | OpenFails e => tail_error e
  end.

(** [run] of the worker [self]: the path and the interval are its fields,
    and [time_sleep] is [time.sleep], which returns ([None]) or raises. *)
Definition TailWorker_run_of (PyFloat : Type)
  (time_sleep : PyFloat -> option exn) (self : TailWorker PyFloat)
  (o : open_result) (ticks : list tick) : list signal :=
  TailWorker_run (time_sleep (poll_interval self)) (filepath self) o ticks.

(** * The vocabulary of the properties

    What the specification speaks of and the code does not name: the shapes
    of chat lines, the platform labels, the single-pass renderer, and the
    inputs of the concrete runs. *)

(** ** Matches *)

(** The classes and minimal lengths of the capturing groups of a pattern. *)
Fixpoint group_specs (p : pattern) : list (nat * charset) :=
  match p with
  | [] => []
  | Repeat true _ min cs :: p' => (min, cs) :: group_specs p'
  | _ :: p' => group_specs p'
  end.

Definition group_ok (spec : nat * charset) (g : pystr) : Prop :=
  fst spec <= List.length g /\ forallb (in_charset (snd spec)) g = true.

(** The class stops at [rest]: it is empty or starts outside the class. *)
Definition stops_at (cs : charset) (rest : pystr) : bool :=
  match rest with
  | [] => true
  | c :: _ => negb (in_charset cs c)
  end.

(** ** Chat lines *)

Definition RPAREN : char := 41%N.
Definition COLON : char := 58%N.

(** A chat line with the qualifier [Q] after the comma, and one without
    comma and qualifier. *)
Definition qualified_line (P Q U M : pystr) : pystr :=
  py "Chat (from '" ++ P ++ py "'," ++ Q ++ py "): '" ++ U ++ py "': " ++ M.

Definition unqualified_line (P U M : pystr) : pystr :=
  py "Chat (from '" ++ P ++ py "'): '" ++ U ++ py "': " ++ M.

(** ** Platform labels *)

(** The labels of the specification and their display text. *)
Inductive PlatformLabel :=
| Xbox
| PSN
| Steam
| Raw (platform_id : pystr).

Definition label_text (l : PlatformLabel) : pystr :=
  match l with
  | Xbox => py "Xbox"
  | PSN => py "PSN"
  | Steam => py "Steam"
  | Raw platform_id => platform_id
  end.

(** The rules of the specification: a prefix decides, and an identifier
    with none of the three prefixes is its own label. *)
Inductive classifies : pystr -> PlatformLabel -> Prop :=
| classifies_Xbox r : classifies (py "Xbox_" ++ r) Xbox
| classifies_PSN r : classifies (py "PSN_" ++ r) PSN
| classifies_Steam r : classifies (py "Steam_" ++ r) Steam
| classifies_Raw pid :
    (forall r, pid <> py "Xbox_" ++ r) ->
    (forall r, pid <> py "PSN_" ++ r) ->
    (forall r, pid <> py "Steam_" ++ r) ->
    classifies pid (Raw pid).

(** ** Template rendering *)

(** *** The single pass of the specification

    The renderer as the specification words it: one pass over the original
    template; where a token starts, its value is written and the token
    skipped, and the values are never scanned.  A token without a value
    ([None]) is left as it is, which describes the template between two of
    the replacements of [substitute]. *)

Inductive token := TokPlatform | TokUser | TokMessage.

Definition token_text (t : token) : pystr :=
  match t with
  | TokPlatform => py "{platform}"
  | TokUser => py "{user}"
  | TokMessage => py "{message}"
  end.

(** The token text after its opening brace. *)
Definition token_body (t : token) : pystr := tl (token_text t).

Definition which_token (s : pystr) : option token :=
  if startswith (token_text TokPlatform) s then Some TokPlatform
  else if startswith (token_text TokUser) s then Some TokUser
  else if startswith (token_text TokMessage) s then Some TokMessage
  else None.

Fixpoint single_pass_from (val : token -> option pystr) (skip : nat)
  (s : pystr) : pystr :=
  match s with
  | [] => []
  | c :: s' =>
      match skip with
      | S k => single_pass_from val k s'
      | O =>
          match which_token s with
          | Some t =>
              match val t with
              | Some v =>
                  v ++ single_pass_from val (List.length (token_text t) - 1) s'
              | None => c :: single_pass_from val 0 s'
              end
          | None => c :: single_pass_from val 0 s'
          end
      end
  end.

Definition values (platform user message : pystr) (t : token) : option pystr :=
  Some match t with
       | TokPlatform => platform
       | TokUser => user
       | TokMessage => message
       end.

Definition render_single_pass (template_text platform user message : pystr)
  : pystr :=
  let template :=
    match template_text with
    | [] => DEFAULT_TEMPLATE
    | _ :: _ => template_text
    end in
  single_pass_from (values platform user message) 0 template.

(** Every opening brace of the template starts a token. *)
Fixpoint braces_ok (s : pystr) : bool :=
  match s with
  | [] => true
  | c :: s' =>
      (if N.eqb c LBRACE
       then match which_token s with Some _ => true | None => false end
       else true) && braces_ok s'
  end.

(** The same, as the way such a template is built. *)
Inductive Tpl : pystr -> Prop :=
| Tpl_nil : Tpl []
| Tpl_char c s : c <> LBRACE -> Tpl s -> Tpl (c :: s)
| Tpl_tok t s : Tpl s -> Tpl (token_text t ++ s).

Definition token_eqb (a b : token) : bool :=
  match a, b with
  | TokPlatform, TokPlatform | TokUser, TokUser | TokMessage, TokMessage => true
  | _, _ => false
  end.

Definition upd (val : token -> option pystr) (t : token) (v : pystr)
  : token -> option pystr :=
  fun t' => if token_eqb t' t then Some v else val t'.

(** ** The line source *)

(** The text that the reader has not read yet. *)
Definition unread (f : textfile) : pystr := skipn (file_pos f) (file_text f).

(** Complete lines, written in one piece. *)
Definition burst (lines : list pystr) : pystr :=
  List.concat (List.map (fun l => l ++ [NEWLINE]) lines).

(** The position of the reader is within the text. *)
Definition file_wf (f : textfile) : Prop :=
  file_pos f <= List.length (file_text f).

(** The loop as a function of the text not read yet. *)
Fixpoint tail_from (sleep : option exn) (pending : pystr) (ticks : list tick)
  : list signal :=
  match ticks with
  | [] => []
  | Appended data :: ticks' =>
      let line := take_line (pending ++ data) in
      let pending' := skipn (List.length line) (pending ++ data) in
      match line with
      | [] =>
          match sleep with
          | None => tail_from sleep pending' ticks'
          | Some e => tail_error e
          end
      | _ :: _ => run_line line ++ tail_from sleep pending' ticks'
      end
  | ReadFails e :: _ => tail_error e
  end.

(** The new chats among the signals. *)
Fixpoint new_chats (sigs : list signal) : list ChatEvent :=
  match sigs with
  | [] => []
  | SigNewChat p u m :: sigs' => mkChat p u m :: new_chats sigs'
  | SigLog _ :: sigs' => new_chats sigs'
  end.

(** All characters of [s] are in [chars]. *)
Definition all_in (chars : list char) (s : pystr) : bool :=
  forallb (fun c => mem c chars) s.

(** ** Windows and replies for concrete runs *)

(** The text given to [float] by [start_watching]. *)
Definition poll_text (PyFloat : Type) (w : MainWindow PyFloat) : pystr :=
  match config_poll_interval w with
  | Some s => s
  | None => py "1"
  end.

(** The window after a start with the interval [x]. *)
Definition started (PyFloat : Type) (w : MainWindow PyFloat) (x : PyFloat)
  : MainWindow PyFloat :=
  mkWindow (file_edit w) (webhook_edit w) (template_edit w)
    (py "Detener vigilancia") (config_poll_interval w)
    (Some (mkWorker (file_edit w) x)) true
    (app_log w ++ [py "Vigilancia iniciada."])
    (threads_started w ++ [mkWorker (file_edit w) x]) (http_posts w).


(** The window after one more post, and after more log lines. *)
Definition with_post (PyFloat : Type) (w : MainWindow PyFloat)
  (url content : pystr) : MainWindow PyFloat :=
  mkWindow (file_edit w) (webhook_edit w) (template_edit w) (start_btn w)
    (config_poll_interval w) (tail_worker w) (worker_isRunning w)
    (app_log w) (threads_started w) (http_posts w ++ [(url, content)]).

Definition with_log (PyFloat : Type) (w : MainWindow PyFloat)
  (lines : list pystr) : MainWindow PyFloat :=
  mkWindow (file_edit w) (webhook_edit w) (template_edit w) (start_btn w)
    (config_poll_interval w) (tail_worker w) (worker_isRunning w)
    (app_log w ++ lines) (threads_started w) (http_posts w).

(** A window with the given file path and webhook field, nothing started;
    floats are not needed for these runs. *)
Definition demo_window (path webhook : pystr) : MainWindow unit :=
  mkWindow path webhook (py "{platform} - {user}: {message}")
    (py "Iniciar vigilancia") (Some (py "1")) None false [] [] [].

Definition reply_status (sc : Z) (body : pystr)
  : list (pystr * pystr) -> pystr -> pystr -> http_reply :=
  fun _ _ _ => Response sc body.

Definition reply_raises (c : exc_class) (text : pystr)
  : list (pystr * pystr) -> pystr -> pystr -> http_reply :=
  fun _ _ _ => Fails (mkExn c text).

(** * Properties *)

(** Literals are evaluated to their code points before a proof computes
    with them. *)
Ltac eval_py :=
  repeat match goal with
  | |- context [py ?s] =>
      let v := eval vm_compute in (py s) in change (py s) with v
  end.

(** ** Strings *)

Section StringFacts.

Lemma mem_true_iff c cs : mem c cs = true <-> In c cs.
Proof.
  induction cs as [|d cs IH]; simpl.
  - split; [discriminate | tauto].
  - rewrite orb_true_iff, IH, N.eqb_eq. split; intros [H|H]; auto.
Qed.

Lemma mem_app c a b : mem c (a ++ b) = mem c a || mem c b.
Proof.
  induction a as [|d a IH]; simpl; [reflexivity|].
  now rewrite IH, orb_assoc.
Qed.

Lemma mem_rev_eq c a : mem c (rev a) = mem c a.
Proof.
  induction a as [|d a IH]; simpl; [reflexivity|].
  rewrite mem_app, IH. simpl. now rewrite orb_false_r, orb_comm.
Qed.

Lemma startswith_app p s : startswith p (p ++ s) = true.
Proof.
  induction p as [|x p IH]; simpl; [reflexivity|].
  now rewrite N.eqb_refl, IH.
Qed.

Lemma startswith_inv p s :
  startswith p s = true -> exists r, s = p ++ r.
Proof.
  revert s; induction p as [|x p IH]; intros s H; simpl in *.
  - now exists s.
  - destruct s as [|y s]; [discriminate|].
    apply andb_true_iff in H as [Hxy Hp]. apply N.eqb_eq in Hxy; subst y.
    destruct (IH _ Hp) as [r ->]. now exists r.
Qed.

Lemma contains_app p a b : contains p (a ++ p ++ b) = true.
Proof.
  induction a as [|x a IH]; simpl.
  - assert (H := startswith_app p b).
    destruct (p ++ b); simpl; now rewrite H.
  - rewrite IH. apply orb_true_r.
Qed.

Lemma contains_self p : contains p p = true.
Proof.
  generalize (contains_app p [] []); simpl. now rewrite app_nil_r.
Qed.

(** A string without the first character of [p] does not contain [p]. *)
Lemma contains_no_head c p s :
  mem c s = false -> contains (c :: p) s = false.
Proof.
  induction s as [|d s IH]; simpl; intros H; [reflexivity|].
  apply orb_false_iff in H as [Hcd Hs].
  now rewrite Hcd, IH.
Qed.

Lemma lstrip_all_space s : forallb isspace s = true -> lstrip s = [].
Proof.
  induction s as [|c s IH]; simpl; intros H; [reflexivity|].
  apply andb_true_iff in H as [Hc Hs]. now rewrite Hc, IH.
Qed.

Lemma strip_blank s : forallb isspace s = true -> strip s = [].
Proof.
  intros H. unfold strip. now rewrite (lstrip_all_space _ H).
Qed.

End StringFacts.

(** ** The matcher *)

Section MatcherFacts.

(** A successful repetition consumed a run of the class, long enough, and
    what follows succeeded on the rest. *)
Lemma repeat_match_sound (A : Type) greedy cs (k : pystr -> pystr -> option A) :
  forall s need acc r,
    repeat_match greedy cs k need acc s = Some r ->
    exists run rest,
      s = run ++ rest /\ forallb (in_charset cs) run = true /\
      need <= List.length run /\ k (rev acc ++ run) rest = Some r.
Proof.
  assert (Hstop : forall need acc s r,
             match need with O => k (rev acc) s | S _ => None end = Some r ->
             exists run rest,
               s = run ++ rest /\ forallb (in_charset cs) run = true /\
               need <= List.length run /\ k (rev acc ++ run) rest = Some r).
  { intros need acc s r H. destruct need; [|discriminate].
    exists [], s. rewrite app_nil_r. simpl. auto. }
  induction s as [|c s IH]; intros need acc r H; simpl in H.
  - destruct greedy; apply Hstop; auto.
    destruct (match need with O => k (rev acc) [] | S _ => None end); auto.
  - assert (Hmore : in_charset cs c = true ->
               repeat_match greedy cs k (pred need) (c :: acc) s = Some r ->
               exists run rest,
                 c :: s = run ++ rest /\ forallb (in_charset cs) run = true /\
                 need <= List.length run /\ k (rev acc ++ run) rest = Some r).
    { intros Hc Hm. destruct (IH _ _ _ Hm) as (run & rest & -> & Hall & Hlen & Hk).
      exists (c :: run), rest. simpl. rewrite Hc, Hall.
      simpl in Hk. rewrite <- app_assoc in Hk. simpl in Hk.
      repeat split; auto. lia. }
    destruct greedy.
    + destruct (in_charset cs c) eqn:Hc.
      * destruct (repeat_match true cs k (pred need) (c :: acc) s) eqn:Hm.
        -- inversion H; subst. now apply Hmore.
        -- now apply Hstop.
      * now apply Hstop.
    + destruct (match need with O => k (rev acc) (c :: s) | S _ => None end) eqn:Hs.
      * inversion H; subst. now apply Hstop.
      * destruct (in_charset cs c) eqn:Hc; [|discriminate]. now apply Hmore.
Qed.

Lemma match_here_groups p :
  forall s groups,
    match_here p s = Some groups -> Forall2 group_ok (group_specs p) groups.
Proof.
  induction p as [|n p IH]; intros s groups H; simpl in H.
  - inversion H. constructor.
  - destruct n as [c|capture greedy min cs|].
    + destruct s as [|d s]; [discriminate|].
      destruct (N.eqb c d); [|discriminate]. simpl. eauto.
    + apply repeat_match_sound in H as (run & rest & -> & Hall & Hlen & Hk).
      simpl in Hk. destruct (match_here p rest) as [g|] eqn:Hp; [|discriminate].
      inversion Hk; subst. specialize (IH _ _ Hp).
      destruct capture; simpl; [constructor; [split|]|]; auto.
    + destruct (at_end s); [|discriminate]. simpl. eauto.
Qed.

(** Every literal of the pattern occurs in a string that it matches. *)
Lemma match_here_literal p c :
  forall s groups,
    match_here p s = Some groups -> In (Lit c) p -> mem c s = true.
Proof.
  induction p as [|n p IH]; intros s groups H Hin; [destruct Hin|].
  simpl in H. destruct n as [d|capture greedy min cs|].
  - destruct s as [|e s]; [discriminate|].
    destruct (N.eqb d e) eqn:Hde; [|discriminate]. apply N.eqb_eq in Hde; subst e.
    simpl. destruct Hin as [Heq|Hin].
    + inversion Heq; subst. now rewrite N.eqb_refl.
    + rewrite (IH _ _ H Hin). apply orb_true_r.
  - destruct Hin as [Heq|Hin]; [discriminate|].
    apply repeat_match_sound in H as (run & rest & -> & _ & _ & Hk).
    destruct (match_here p rest) as [g|] eqn:Hp; [|discriminate].
    rewrite mem_app, (IH _ _ Hp Hin). apply orb_true_r.
  - destruct Hin as [Heq|Hin]; [discriminate|].
    destruct (at_end s); [|discriminate]. eauto.
Qed.

Lemma search_sound p :
  forall s groups,
    search p s = Some groups ->
    exists pre rest, s = pre ++ rest /\ match_here p rest = Some groups.
Proof.
  induction s as [|c s IH]; intros groups H; simpl in H.
  - destruct (match_here p []) eqn:Hm; [|discriminate].
    inversion H; subst. now exists [], [].
  - destruct (match_here p (c :: s)) eqn:Hm.
    + inversion H; subst. now exists [], (c :: s).
    + destruct (IH _ H) as (pre & rest & -> & Hr).
      now exists (c :: pre), rest.
Qed.

Lemma search_here p s groups :
  match_here p s = Some groups -> search p s = Some groups.
Proof.
  intros H. destruct s; simpl; now rewrite H.
Qed.

End MatcherFacts.

Section MatcherRuns.

Lemma match_here_lits w p s :
  match_here (List.map Lit w ++ p) (w ++ s) = match_here p s.
Proof.
  induction w as [|c w IH]; simpl; [reflexivity|].
  now rewrite N.eqb_refl.
Qed.

Lemma match_here_repeat capture greedy min cs p s :
  match_here (Repeat capture greedy min cs :: p) s =
  repeat_match greedy cs
    (fun run rest =>
       match match_here p rest with
       | Some groups => Some (if capture then run :: groups else groups)
       | None => None
       end)
    min [] s.
Proof. reflexivity. Qed.

(** A greedy repetition takes the whole run when the rest then matches. *)
Lemma repeat_greedy_longest (A : Type) cs (k : pystr -> pystr -> option A) rest r :
  stops_at cs rest = true ->
  forall run need acc,
    forallb (in_charset cs) run = true ->
    need <= List.length run ->
    k (rev acc ++ run) rest = Some r ->
    repeat_match true cs k need acc (run ++ rest) = Some r.
Proof.
  intros Hstop. induction run as [|c run IH]; intros need acc Hall Hlen Hk.
  - simpl in Hlen. assert (need = 0) by lia; subst need.
    rewrite app_nil_r in Hk. simpl app.
    destruct rest as [|d rest]; simpl in *; [exact Hk|].
    apply negb_true_iff in Hstop. now rewrite Hstop.
  - simpl in Hall. apply andb_true_iff in Hall as [Hc Hall].
    simpl. rewrite Hc. rewrite (IH (pred need) (c :: acc)); auto.
    + simpl in Hlen. lia.
    + simpl. now rewrite <- app_assoc.
Qed.

(** A lazy repetition stops at the first place where the rest matches. *)
Lemma repeat_lazy_shortest (A : Type) cs (k : pystr -> pystr -> option A) rest r :
  forall run acc,
    forallb (in_charset cs) run = true ->
    (forall a c b, run = a ++ c :: b -> k (rev acc ++ a) (c :: b ++ rest) = None) ->
    k (rev acc ++ run) rest = Some r ->
    repeat_match false cs k 0 acc (run ++ rest) = Some r.
Proof.
  induction run as [|c run IH]; intros acc Hall Hfail Hk.
  - rewrite app_nil_r in Hk. simpl app.
    destruct rest; simpl; now rewrite Hk.
  - simpl in Hall. apply andb_true_iff in Hall as [Hc Hall].
    simpl. generalize (Hfail [] c run eq_refl). rewrite app_nil_r.
    intros ->. rewrite Hc. apply IH; auto.
    + intros a d b ->. simpl. rewrite <- app_assoc. simpl.
      now apply (Hfail (c :: a) d b).
    + simpl. now rewrite <- app_assoc.
Qed.

Lemma forallb_notin c s :
  mem c s = false <-> forallb (in_charset (NotIn [c])) s = true.
Proof.
  induction s as [|d s IH]; simpl; [tauto|].
  rewrite orb_false_r, N.eqb_sym, orb_false_iff, andb_true_iff, negb_true_iff.
  now rewrite IH.
Qed.

Lemma forallb_dot s :
  mem NEWLINE s = false <-> forallb (in_charset Dot) s = true.
Proof.
  induction s as [|d s IH]; simpl; [tauto|].
  rewrite N.eqb_sym, orb_false_iff, andb_true_iff, negb_true_iff.
  now rewrite IH.
Qed.

Lemma length_pos (s : pystr) : s <> [] <-> 1 <= List.length s.
Proof.
  destruct s; simpl; split; intros H; try congruence; try lia.
Qed.

End MatcherRuns.

(** ** Chat lines *)

Lemma comma_in_CHAT_LINE_RE : In (Lit COMMA) CHAT_LINE_RE.
Proof.
  unfold CHAT_LINE_RE, lits. apply in_or_app. right.
  apply in_or_app. right. apply in_or_app. right.
  apply in_or_app. left. now left.
Qed.

Lemma group_specs_CHAT_LINE_RE :
  group_specs CHAT_LINE_RE =
  [(1, NotIn [QUOTE]); (1, NotIn [QUOTE]); (1, Dot)].
Proof. reflexivity. Qed.

(** A line without a comma is never matched. *)
Lemma no_comma_no_chat line : mem COMMA line = false -> chat_of_line line = None.
Proof.
  intros Hno. unfold chat_of_line.
  destruct (search CHAT_LINE_RE line) as [groups|] eqn:Hs; [|reflexivity].
  apply search_sound in Hs as (pre & rest & -> & Hm).
  apply match_here_literal with (c := COMMA) in Hm; [|exact comma_in_CHAT_LINE_RE].
  rewrite mem_app, Hm, orb_true_r in Hno. discriminate.
Qed.

(** The three groups of a match. *)
Lemma chat_groups line groups :
  search CHAT_LINE_RE line = Some groups ->
  exists g1 g2 g3,
    groups = [g1; g2; g3] /\
    g1 <> [] /\ mem QUOTE g1 = false /\
    g2 <> [] /\ mem QUOTE g2 = false /\
    g3 <> [] /\ mem NEWLINE g3 = false.
Proof.
  intros Hs. apply search_sound in Hs as (pre & rest & -> & Hm).
  apply match_here_groups in Hm. rewrite group_specs_CHAT_LINE_RE in Hm.
  inversion Hm as [|s1 g1 l1 t1 [L1 C1] Hm1]; subst.
  inversion Hm1 as [|s2 g2 l2 t2 [L2 C2] Hm2]; subst.
  inversion Hm2 as [|s3 g3 l3 t3 [L3 C3] Hm3]; subst.
  inversion Hm3; subst.
  exists g1, g2, g3. simpl in *.
  rewrite length_pos, length_pos, length_pos.
  rewrite (forallb_notin QUOTE g1), (forallb_notin QUOTE g2), forallb_dot.
  repeat split; auto.
Qed.

(** The match of a qualified line whose parts cannot be split otherwise. *)
Lemma qualified_line_groups P Q U M :
  P <> [] -> mem QUOTE P = false ->
  mem RPAREN Q = false -> mem NEWLINE Q = false ->
  U <> [] -> mem QUOTE U = false ->
  M <> [] -> mem NEWLINE M = false ->
  search CHAT_LINE_RE (qualified_line P Q U M) = Some [P; U; M].
Proof.
  intros HP HPq HQp HQn HU HUq HM HMn.
  apply search_here. unfold CHAT_LINE_RE, qualified_line, lits.
  assert (A3 : match_here [Repeat true true 1 Dot; EndAnchor] M = Some [M]).
  { rewrite match_here_repeat, <- (app_nil_r M) at 1.
    apply repeat_greedy_longest; auto.
    - now apply forallb_dot.
    - now apply length_pos. }
  assert (A2 : match_here
                 (Repeat true true 1 (NotIn [QUOTE]) ::
                  List.map Lit (py "': ") ++ [Repeat true true 1 Dot; EndAnchor])
                 (U ++ py "': " ++ M) = Some [U; M]).
  { rewrite match_here_repeat.
    apply repeat_greedy_longest; auto.
    - now apply forallb_notin.
    - now apply length_pos.
    - cbn [app rev]. now rewrite match_here_lits, A3. }
  rewrite match_here_lits. cbn [app]. rewrite match_here_repeat.
  apply repeat_greedy_longest; auto.
  - now apply forallb_notin.
  - now apply length_pos.
  - cbn [app rev].
    change (py "',") with (py "'" ++ py ",").
    rewrite <- !app_assoc.
    rewrite match_here_lits, match_here_lits.
    cbn [app]. rewrite match_here_repeat.
    rewrite (@repeat_lazy_shortest _ Dot _ _ [U; M]); auto.
    + now apply forallb_dot.
    + intros a c b ->. rewrite !mem_app in HQp. cbn [mem] in HQp.
      apply orb_false_iff in HQp as [_ HQp].
      apply orb_false_iff in HQp as [Hc _].
      eval_py. cbn [List.map app match_here]. fold RPAREN. now rewrite Hc.
    + cbn [app rev]. now rewrite match_here_lits, A2.
Qed.

Example chat_real_log_line :
  chat_of_line
    (py "2024-05-01T10:00:00 12.3 INF Chat (from 'Steam_765', entity id '171', to 'Global'): 'Zed': hi all")
  = Some (mkChat (py "Steam_765") (py "Zed") (py "hi all")).
Proof. vm_compute. reflexivity. Qed.

Example chat_apostrophe_user :
  chat_of_line (py "Chat (from 'Steam_1', Entity): 'O'Brien': hi") = None.
Proof. vm_compute. reflexivity. Qed.

(** The lazy run of the qualifier may reach into the message: the event is
    then read from the later place. *)
Example chat_later_match :
  chat_of_line (py "Chat (from 'Steam_1', Entity): 'O'Brien': ): 'x': y") =
  Some (mkChat (py "Steam_1") (py "x") (py "y")).
Proof. vm_compute. reflexivity. Qed.

Example run_line_chat :
  run_line (py "  Chat (from 'PSN_9', x): 'Ann': 'ok'  ") =
  [ SigLog (py "Linea detectada: Chat (from 'PSN_9', x): 'Ann': 'ok'");
    SigLog (py "Chat parseado -> platform: PSN_9, user: Ann, message: ok");
    SigNewChat (py "PSN_9") (py "Ann") (py "ok") ].
Proof. vm_compute. reflexivity. Qed.

(** [run_line] emits [new_chat] exactly for the event of the trimmed line. *)
Lemma run_line_new_chat raw p u m :
  In (SigNewChat p u m) (run_line raw) <->
  chat_of_line (strip raw) = Some (mkChat p u m).
Proof.
  unfold run_line. destruct (strip raw) as [|c line] eqn:E.
  - split; [intros []|]. vm_compute. discriminate.
  - destruct (chat_of_line (c :: line)) as [[p' u' m']|]; simpl.
    + split.
      * intros [H|[H|[H|[]]]]; try discriminate. now inversion H.
      * intros H. inversion H. auto.
    + split; [intros [H|[]]|]; discriminate.
Qed.

(** What is left of a text after trimming has no character that the text
    has not. *)
Lemma lstrip_mem c s : mem c s = false -> mem c (lstrip s) = false.
Proof.
  induction s as [|d s IH]; cbn [lstrip mem]; intros H; [reflexivity|].
  apply orb_false_iff in H as [Hd Hs].
  destruct (isspace d); [now apply IH|]. cbn [mem]. now rewrite Hd, Hs.
Qed.

Lemma strip_mem c s : mem c s = false -> mem c (strip s) = false.
Proof.
  intros H. unfold strip. rewrite mem_rev_eq. apply lstrip_mem.
  rewrite mem_rev_eq. now apply lstrip_mem.
Qed.

(** The new chats of a text read are the event of its trimmed line. *)
Lemma new_chats_run_line raw :
  new_chats (run_line raw) =
  match chat_of_line (strip raw) with
  | Some e => [e]
  | None => []
  end.
Proof.
  unfold run_line. destruct (strip raw) as [|c line]; [reflexivity|].
  now destruct (chat_of_line (c :: line)) as [[p u m]|].
Qed.

(** A text without a comma gives no new chat. *)
Lemma no_comma_no_new_chat raw :
  mem COMMA raw = false -> new_chats (run_line raw) = [].
Proof.
  intros H. rewrite new_chats_run_line.
  now rewrite (no_comma_no_chat _ (strip_mem _ _ H)).
Qed.

(** C1 (as stated, refuted): the line [Chat (from 'P'): 'U': M], which has no
    comma qualifier after the platform id, produces no chat event. *)
Lemma C1_unqualified_line_gives_no_event :
  chat_of_line (py "Chat (from 'P'): 'U': M") = None.
Proof. vm_compute. reflexivity. Qed.

(** C1 (amended): the qualifier is required.  Let the text read trim to the
    line [Chat (from 'P',Q): 'U': M] -- [P] and [U] non-empty without a
    single quote, the qualifier text [Q] without a closing parenthesis, [M]
    non-empty, no newline in [Q] and [M].  Then the line matches and the
    loop emits the one event with platform id [P], user [U] and the
    edge-stripped [M].  The line [Chat (from 'P'): 'U': M] without comma and
    qualifier matches nowhere and gives no event, read with or without its
    newline, when there is no comma in [P], [U] and [M]. *)
Theorem C1_qualifier_is_required (P Q U M raw : pystr) :
  P <> [] -> mem QUOTE P = false ->
  mem RPAREN Q = false -> mem NEWLINE Q = false ->
  U <> [] -> mem QUOTE U = false ->
  M <> [] -> mem NEWLINE M = false ->
  strip raw = qualified_line P Q U M ->
  chat_of_line (qualified_line P Q U M) =
    Some (mkChat P U (strip_chars MESSAGE_EDGE M)) /\
  new_chats (run_line raw) = [mkChat P U (strip_chars MESSAGE_EDGE M)] /\
  (mem COMMA (P ++ U ++ M) = false ->
   chat_of_line (unqualified_line P U M) = None /\
   new_chats (run_line (unqualified_line P U M)) = [] /\
   new_chats (run_line (unqualified_line P U M ++ [NEWLINE])) = []).
Proof.
  intros HP HPq HQp HQn HU HUq HM HMn Hraw.
  assert (E : chat_of_line (qualified_line P Q U M) =
              Some (mkChat P U (strip_chars MESSAGE_EDGE M))).
  { unfold chat_of_line.
    now rewrite (qualified_line_groups Q HP HPq HQp HQn HU HUq HM HMn). }
  split; [exact E|]. split.
  - now rewrite new_chats_run_line, Hraw, E.
  - intros Hc.
    assert (Hno : mem COMMA (unqualified_line P U M) = false).
    { unfold unqualified_line. rewrite !mem_app in *.
      apply orb_false_iff in Hc as [HcP Hc].
      apply orb_false_iff in Hc as [HcU HcM].
      rewrite HcP, HcU, HcM. reflexivity. }
    split; [now apply no_comma_no_chat|].
    split; apply no_comma_no_new_chat; [exact Hno|].
    rewrite mem_app, Hno. reflexivity.
Qed.

Lemma C1_qualifier_is_required_witness :
  let P := py "Steam_1" in
  let U := py "Zed" in
  let M := py "'hi'" in
  let raw := py "  " ++ qualified_line P (py " Entity") U M ++ [NEWLINE] in
  chat_of_line (qualified_line P (py " Entity") U M) =
    Some (mkChat P U (strip_chars MESSAGE_EDGE M)) /\
  new_chats (run_line raw) = [mkChat P U (strip_chars MESSAGE_EDGE M)] /\
  (mem COMMA (P ++ U ++ M) = false ->
   chat_of_line (unqualified_line P U M) = None /\
   new_chats (run_line (unqualified_line P U M)) = [] /\
   new_chats (run_line (unqualified_line P U M ++ [NEWLINE])) = []).
Proof.
  apply (@C1_qualifier_is_required
           (py "Steam_1") (py " Entity") (py "Zed") (py "'hi'")
           (py "  " ++
            qualified_line (py "Steam_1") (py " Entity") (py "Zed") (py "'hi'")
            ++ [NEWLINE]));
    vm_compute; first [reflexivity | discriminate].
Defined.

(** C6: the line of Scenario A gives exactly the event with platform id
    [Steam_123], user [Zed] and message [hello world], and that platform id
    is labelled [Steam]. *)
Theorem C6_scenario_A :
  chat_of_line (py "Chat (from 'Steam_123', Entity): 'Zed': hello world") =
    Some (mkChat (py "Steam_123") (py "Zed") (py "hello world")) /\
  platform_label (py "Steam_123") = py "Steam" /\
  run_line (py "Chat (from 'Steam_123', Entity): 'Zed': hello world") =
    [ SigLog (py "Linea detectada: Chat (from 'Steam_123', Entity): 'Zed': hello world");
      SigLog (py "Chat parseado -> platform: Steam_123, user: Zed, message: hello world");
      SigNewChat (py "Steam_123") (py "Zed") (py "hello world") ].
Proof. repeat split; vm_compute; reflexivity. Qed.

Section MatchShape.

Lemma match_here_lits_inv w p :
  forall s groups,
    match_here (List.map Lit w ++ p) s = Some groups ->
    exists r, s = w ++ r /\ match_here p r = Some groups.
Proof.
  induction w as [|c w IH]; intros s groups H; cbn [List.map app] in *.
  - now exists s.
  - cbn [match_here] in H. destruct s as [|d s]; [discriminate|].
    destruct (N.eqb c d) eqn:E; [|discriminate]. apply N.eqb_eq in E; subst d.
    destruct (IH _ _ H) as (r & -> & Hr). now exists r.
Qed.

(** Where a pattern matches, its end part matches at an end part of the
    text. *)
Lemma match_here_suffix p1 p2 :
  forall s groups,
    match_here (p1 ++ p2) s = Some groups ->
    exists s1 s2 groups2, s = s1 ++ s2 /\ match_here p2 s2 = Some groups2.
Proof.
  induction p1 as [|n p1 IH]; intros s groups H; cbn [app] in H.
  - now exists [], s, groups.
  - destruct n as [c|capture greedy min cs|].
    + cbn [match_here] in H. destruct s as [|d s]; [discriminate|].
      destruct (N.eqb c d); [|discriminate].
      destruct (IH _ _ H) as (s1 & s2 & g2 & -> & H2).
      now exists (d :: s1), s2, g2.
    + rewrite match_here_repeat in H.
      apply repeat_match_sound in H as (run & rest & -> & _ & _ & Hk).
      destruct (match_here (p1 ++ p2) rest) as [g|] eqn:Hp; [|discriminate].
      destruct (IH _ _ Hp) as (s1 & s2 & g2 & -> & H2).
      exists (run ++ s1), s2, g2. now rewrite app_assoc.
    + cbn [match_here] in H. destruct (at_end s); [|discriminate]. eauto.
Qed.

(** A character that occurs once splits a text in one way only. *)
Lemma split_at_only c a b a' b' :
  mem c a = false -> mem c b = false ->
  a ++ c :: b = a' ++ c :: b' -> a = a' /\ b = b'.
Proof.
  revert a'. induction a as [|x a IH]; intros a' Ha Hb E.
  - destruct a' as [|y a']; cbn [app] in E.
    + inversion E. auto.
    + inversion E; subst. rewrite mem_app in Hb. cbn [mem] in Hb.
      now rewrite N.eqb_refl, orb_true_r in Hb.
  - cbn [mem] in Ha. apply orb_false_iff in Ha as [Hx Ha].
    destruct a' as [|y a']; cbn [app] in E.
    + inversion E; subst. now rewrite N.eqb_refl in Hx.
    + inversion E; subst. destruct (IH a' Ha Hb H1) as [-> ->]. auto.
Qed.

(** The first occurrence of a character splits a text in one way only. *)
Lemma split_at_first c a b a' b' :
  mem c a = false -> mem c a' = false ->
  a ++ c :: b = a' ++ c :: b' -> a = a' /\ b = b'.
Proof.
  revert a'. induction a as [|x a IH]; intros a' Ha Ha' E.
  - destruct a' as [|y a']; cbn [app] in E.
    + inversion E. auto.
    + inversion E; subst. cbn [mem] in Ha'. now rewrite N.eqb_refl in Ha'.
  - cbn [mem] in Ha. apply orb_false_iff in Ha as [Hx Ha].
    destruct a' as [|y a']; cbn [app] in E.
    + inversion E; subst. now rewrite N.eqb_refl in Hx.
    + inversion E; subst. cbn [mem] in Ha'.
      apply orb_false_iff in Ha' as [_ Ha'].
      destruct (IH a' Ha Ha' H1) as [-> ->]. auto.
Qed.

Lemma mem_split_first c s :
  mem c s = true -> exists a b, s = a ++ c :: b /\ mem c a = false.
Proof.
  induction s as [|d s IH]; cbn [mem]; [discriminate|].
  destruct (N.eqb c d) eqn:E.
  - apply N.eqb_eq in E; subst d. now exists [], s.
  - cbn [orb]. intros H. destruct (IH H) as (a & b & -> & Ha).
    exists (d :: a), b. cbn [mem]. now rewrite E, Ha.
Qed.

(** A line with one closing parenthesis only, followed by a user name with
    a single quote and without colon, is matched nowhere. *)
Lemma quoted_user_no_match X U Z :
  mem RPAREN X = false -> mem RPAREN U = false -> mem RPAREN Z = false ->
  mem QUOTE U = true -> mem COLON U = false ->
  search CHAT_LINE_RE (X ++ py "): '" ++ U ++ QUOTE :: Z) = None.
Proof.
  intros HX HU HZ Hq Hc.
  destruct (search CHAT_LINE_RE _) as [groups|] eqn:Hs; [|reflexivity].
  exfalso. apply search_sound in Hs as (pre & rest & E & Hm).
  change CHAT_LINE_RE with
    ((lits "Chat (from '" ++ [Repeat true true 1 (NotIn [QUOTE])] ++
      lits "'" ++ lits "," ++ [Repeat false false 0 Dot]) ++
     List.map Lit (py "): '") ++
     Repeat true true 1 (NotIn [QUOTE]) ::
     List.map Lit (py "': ") ++ [Repeat true true 1 Dot; EndAnchor]) in Hm.
  apply match_here_suffix in Hm as (s1 & s2 & g2 & -> & Hm).
  apply match_here_lits_inv in Hm as (r & -> & Hm).
  rewrite match_here_repeat in Hm.
  apply repeat_match_sound in Hm as (run & rest' & -> & Hrun & _ & Hk).
  destruct (match_here _ rest') as [g|] eqn:Hl; [|discriminate].
  apply match_here_lits_inv in Hl as (r' & -> & _).
  apply forallb_notin in Hrun.
  change (py "): '") with (RPAREN :: py ": '") in E.
  cbn [app] in E. rewrite (app_assoc pre s1) in E.
  apply split_at_only in E as [_ E]; [|exact HX|].
  - change (py ": '") with [COLON; SPACE; QUOTE] in E.
    cbn [app] in E. inversion E as [E'].
    destruct (mem_split_first _ _ Hq) as (U1 & U2 & -> & HU1).
    rewrite <- app_assoc in E'. cbn [app] in E'.
    change (py "': ") with (QUOTE :: py ": ") in E'. cbn [app] in E'.
    apply split_at_first in E' as [_ E']; auto.
    rewrite mem_app in Hc. cbn [mem] in Hc.
    change (py ": ") with [COLON; SPACE] in E'.
    destruct U2 as [|d U2]; cbn [app] in E'; [discriminate E'|].
    injection E' as Hd _. subst d.
    unfold COLON in Hc. cbn [mem] in Hc. rewrite N.eqb_refl in Hc.
    cbn [orb] in Hc. rewrite !orb_true_r in Hc. discriminate Hc.
  - change (py ": '") with [COLON; SPACE; QUOTE]. cbn [app mem].
    rewrite mem_app. cbn [mem]. now rewrite HU, HZ.
Qed.

End MatchShape.

(** C10 (as stated, refuted): the line
    [Chat (from 'Steam_1', Entity): 'O'Brien': ): 'x': y] is a chat line
    whose user name, [O'Brien], contains an apostrophe, and it does yield a
    chat event: the one read from the later place, with user [x]. *)
Lemma C10_apostrophe_user_line_yields_event :
  let line :=
    qualified_line (py "Steam_1") (py " Entity") (py "O'Brien")
      (py "): 'x': y") in
  mem QUOTE (py "O'Brien") = true /\
  line = py "Chat (from 'Steam_1', Entity): 'O'Brien': ): 'x': y" /\
  chat_of_line line = Some (mkChat (py "Steam_1") (py "x") (py "y")) /\
  new_chats (run_line (line ++ [NEWLINE])) =
    [mkChat (py "Steam_1") (py "x") (py "y")].
Proof. repeat split; vm_compute; reflexivity. Qed.

(** C10 (amended): every chat event has a non-empty platform id and a
    non-empty user, both without a single quote, and its message is the
    edge-stripped third group of the match, which is non-empty.  So no event
    carries a user name with an apostrophe, and a chat line whose user name
    contains an apostrophe yields no event at all when there is no closing
    parenthesis in its platform id, qualifier, user name and message and no
    colon in the user name.  (Otherwise it can yield an event read from a
    later place of the line.) *)
Theorem C10_chat_event_invariant :
  (forall line e,
      chat_of_line line = Some e ->
      platformId e <> [] /\ mem QUOTE (platformId e) = false /\
      user e <> [] /\ mem QUOTE (user e) = false /\
      (exists g3,
          search CHAT_LINE_RE line = Some [platformId e; user e; g3] /\
          g3 <> [] /\ message e = strip_chars MESSAGE_EDGE g3)) /\
  (forall P Q U M raw,
      mem QUOTE U = true -> mem COLON U = false ->
      mem RPAREN (P ++ Q ++ U ++ M) = false ->
      strip raw = qualified_line P Q U M ->
      chat_of_line (qualified_line P Q U M) = None /\
      new_chats (run_line raw) = []).
Proof.
  split.
  - unfold chat_of_line. intros line e H.
    destruct (search CHAT_LINE_RE line) as [groups|] eqn:Hs; [|discriminate].
    destruct (chat_groups _ Hs) as
      (g1 & g2 & g3 & -> & H1 & Q1 & H2 & Q2 & H3 & _).
    inversion H; subst e; simpl.
    repeat split; auto. exists g3. auto.
  - intros P Q U M raw Hq Hc Hp Hraw.
    rewrite !mem_app in Hp.
    apply orb_false_iff in Hp as [HP Hp].
    apply orb_false_iff in Hp as [HQ Hp].
    apply orb_false_iff in Hp as [HU HM].
    assert (E : chat_of_line (qualified_line P Q U M) = None).
    { unfold chat_of_line.
      replace (qualified_line P Q U M) with
        ((py "Chat (from '" ++ P ++ py "'," ++ Q) ++ py "): '" ++ U ++
         QUOTE :: (py ": " ++ M))
        by (unfold qualified_line; now rewrite <- !app_assoc).
      rewrite quoted_user_no_match; try assumption; try reflexivity;
        rewrite !mem_app, ?HP, ?HQ, ?HM; reflexivity. }
    split; [exact E|]. now rewrite new_chats_run_line, Hraw, E.
Qed.

Lemma C10_chat_event_invariant_witness :
  let e := mkChat (py "Steam_123") (py "Zed") (py "hello world") in
  let line :=
    qualified_line (py "Steam_1") (py " Entity") (py "O'Brien") (py "hi") in
  (platformId e <> [] /\ mem QUOTE (platformId e) = false /\
   user e <> [] /\ mem QUOTE (user e) = false /\
   (exists g3,
       search CHAT_LINE_RE
         (py "Chat (from 'Steam_123', Entity): 'Zed': hello world") =
         Some [platformId e; user e; g3] /\
       g3 <> [] /\ message e = strip_chars MESSAGE_EDGE g3)) /\
  (chat_of_line line = None /\ new_chats (run_line (line ++ [NEWLINE])) = []).
Proof.
  split.
  - apply (proj1 C10_chat_event_invariant
             (py "Chat (from 'Steam_123', Entity): 'Zed': hello world")
             (mkChat (py "Steam_123") (py "Zed") (py "hello world"))).
    vm_compute. reflexivity.
  - apply (proj2 C10_chat_event_invariant
             (py "Steam_1") (py " Entity") (py "O'Brien") (py "hi")
             (qualified_line (py "Steam_1") (py " Entity") (py "O'Brien")
                (py "hi") ++ [NEWLINE]));
      vm_compute; reflexivity.
Defined.

(** ** Platform classification *)

Lemma startswith_false_neq p s :
  startswith p s = false -> forall r, s <> p ++ r.
Proof.
  intros H r ->. now rewrite startswith_app in H.
Qed.

Lemma classifies_cases pid l :
  classifies pid l ->
  match l with
  | Xbox => startswith (py "Xbox_") pid = true
  | PSN => startswith (py "PSN_") pid = true
  | Steam => startswith (py "Steam_") pid = true
  | Raw q =>
      q = pid /\ startswith (py "Xbox_") pid = false /\
      startswith (py "PSN_") pid = false /\
      startswith (py "Steam_") pid = false
  end.
Proof.
  intros H. destruct H as [r|r|r|pid HX HP HS]; try apply startswith_app.
  repeat split.
  - destruct (startswith (py "Xbox_") pid) eqn:E; [|reflexivity].
    apply startswith_inv in E as [r E]. now destruct (HX r).
  - destruct (startswith (py "PSN_") pid) eqn:E; [|reflexivity].
    apply startswith_inv in E as [r E]. now destruct (HP r).
  - destruct (startswith (py "Steam_") pid) eqn:E; [|reflexivity].
    apply startswith_inv in E as [r E]. now destruct (HS r).
Qed.

(** No identifier has two of the three prefixes. *)
Lemma prefixes_exclusive pid :
  (startswith (py "Xbox_") pid = true -> startswith (py "PSN_") pid = false) /\
  (startswith (py "Xbox_") pid = true -> startswith (py "Steam_") pid = false) /\
  (startswith (py "PSN_") pid = true -> startswith (py "Steam_") pid = false).
Proof.
  repeat split; intros H; apply startswith_inv in H as [r ->]; reflexivity.
Qed.

(** C5: every platform id has exactly one label under the prefix rules, the
    label computed by the [startswith] chain (tested in the order [Xbox_],
    [PSN_], [Steam_]) is its text, an id with none of the prefixes is its
    own label unchanged, and the test is case-sensitive and at the start of
    the id only. *)
Theorem C5_classification_total_deterministic :
  (forall pid,
      exists l,
        classifies pid l /\
        (forall l', classifies pid l' -> l' = l) /\
        platform_label pid = label_text l) /\
  (forall pid,
      platform_label pid =
      if startswith (py "Xbox_") pid then py "Xbox"
      else if startswith (py "PSN_") pid then py "PSN"
      else if startswith (py "Steam_") pid then py "Steam"
      else pid) /\
  platform_label (py "xbox_1") = py "xbox_1" /\
  platform_label (py "STEAM_1") = py "STEAM_1" /\
  platform_label (py " PSN_1") = py " PSN_1".
Proof.
  split; [|repeat split].
  intros pid. unfold platform_label.
  destruct (startswith (py "Xbox_") pid) eqn:EX;
    [|destruct (startswith (py "PSN_") pid) eqn:EP;
      [|destruct (startswith (py "Steam_") pid) eqn:ES]].
  - destruct (startswith_inv _ _ EX) as [r ->].
    exists Xbox. repeat split; [constructor|].
    intros l' H. apply classifies_cases in H.
    destruct l'; try reflexivity; try discriminate H.
    destruct H as (_ & H & _). discriminate H.
  - destruct (startswith_inv _ _ EP) as [r ->].
    exists PSN. repeat split; [constructor|].
    intros l' H. apply classifies_cases in H.
    destruct l'; try reflexivity; try discriminate H.
    destruct H as (_ & _ & H & _). discriminate H.
  - destruct (startswith_inv _ _ ES) as [r ->].
    exists Steam. repeat split; [constructor|].
    intros l' H. apply classifies_cases in H.
    destruct l'; try reflexivity; try discriminate H.
    destruct H as (_ & _ & _ & H). discriminate H.
  - exists (Raw pid). repeat split.
    + constructor; now apply startswith_false_neq.
    + intros l' H. apply classifies_cases in H.
      destruct l'; try congruence. destruct H as [-> _]. reflexivity.
Qed.

(** ** Template rendering *)

Section Replace.

Lemma replace_from_skip old new :
  forall s k, replace_from old new k s = replace_from old new 0 (skipn k s).
Proof.
  induction s as [|c s IH]; intros k.
  - now destruct k.
  - destruct k as [|k]; [reflexivity|]. simpl. apply IH.
Qed.

Lemma skipn_length_app (w r : pystr) : skipn (List.length w) (w ++ r) = r.
Proof. induction w; simpl; auto. Qed.

(** At an occurrence the new text is written and the scan continues after
    the occurrence. *)
Lemma replace_hit x old new r :
  replace_from (x :: old) new 0 ((x :: old) ++ r) =
  new ++ replace_from (x :: old) new 0 r.
Proof.
  change ((x :: old) ++ r) with (x :: old ++ r).
  assert (H := startswith_app (x :: old) r). cbn [app] in H.
  cbn [replace_from]. rewrite H.
  f_equal. rewrite replace_from_skip.
  replace (List.length (x :: old) - 1) with (List.length old)
    by (simpl; lia).
  now rewrite skipn_length_app.
Qed.

Lemma replace_miss old new c s :
  startswith old (c :: s) = false ->
  replace_from old new 0 (c :: s) = c :: replace_from old new 0 s.
Proof. intros H. cbn [replace_from]. now rewrite H. Qed.

(** Text without the first character of [old] is copied. *)
Lemma replace_word x old new w s :
  mem x w = false ->
  replace_from (x :: old) new 0 (w ++ s) = w ++ replace_from (x :: old) new 0 s.
Proof.
  induction w as [|c w IH]; intros H; [reflexivity|].
  cbn [mem] in H. apply orb_false_iff in H as [Hc Hw].
  cbn [app]. rewrite replace_miss, IH; auto.
  cbn [startswith]. now rewrite Hc.
Qed.

Lemma replace_word_all x old new w :
  mem x w = false -> replace (x :: old) new w = w.
Proof.
  intros H. unfold replace.
  generalize (@replace_word x old new w [] H).
  cbn [replace_from]. now rewrite !app_nil_r.
Qed.

End Replace.

Section Tokens.

Lemma token_text_brace t : token_text t = LBRACE :: token_body t.
Proof. now destruct t. Qed.

Lemma token_body_no_brace t : mem LBRACE (token_body t) = false.
Proof. now destruct t. Qed.

Lemma token_eqb_eq a b : token_eqb a b = true <-> a = b.
Proof. destruct a, b; simpl; split; congruence. Qed.

Lemma which_token_text t s : which_token (token_text t ++ s) = Some t.
Proof. now destruct t. Qed.

Lemma which_token_inv s t : which_token s = Some t -> exists r, s = token_text t ++ r.
Proof.
  unfold which_token. intros H.
  destruct (startswith (token_text TokPlatform) s) eqn:E1;
    [|destruct (startswith (token_text TokUser) s) eqn:E2;
      [|destruct (startswith (token_text TokMessage) s) eqn:E3]];
    inversion H; subst; now apply startswith_inv.
Qed.

Lemma which_token_no_brace c s : c <> LBRACE -> which_token (c :: s) = None.
Proof.
  intros H. apply N.eqb_neq in H. rewrite N.eqb_sym in H.
  unfold which_token. rewrite !token_text_brace. cbn [startswith].
  now rewrite H.
Qed.

Lemma startswith_other_token t t' s :
  t' <> t -> startswith (token_text t) (token_text t' ++ s) = false.
Proof. destruct t, t'; intros H; try reflexivity; congruence. Qed.

Lemma Tpl_drop_word w r : mem LBRACE w = false -> Tpl (w ++ r) -> Tpl r.
Proof.
  induction w as [|c w IH]; intros Hw H; [exact H|].
  cbn [mem] in Hw. apply orb_false_iff in Hw as [Hc Hw].
  cbn [app] in H. inversion H as [|c' s' Hne Hs|t s' Hs Heq]; subst.
  - auto.
  - rewrite token_text_brace in Heq. inversion Heq; subst.
    now rewrite N.eqb_refl in Hc.
Qed.

Lemma braces_ok_Tpl s : braces_ok s = true -> Tpl s.
Proof.
  induction s as [|c s IH]; intros H; [constructor|].
  cbn [braces_ok] in H. apply andb_true_iff in H as [Hc Hs].
  specialize (IH Hs). destruct (N.eqb c LBRACE) eqn:E.
  - destruct (which_token (c :: s)) as [t|] eqn:W; [|discriminate].
    apply which_token_inv in W as [r Hr]. rewrite Hr. constructor.
    rewrite token_text_brace in Hr. inversion Hr; subst.
    apply (Tpl_drop_word _ _ (token_body_no_brace t) IH).
  - apply N.eqb_neq in E. now constructor.
Qed.

End Tokens.

Section SinglePass.

Variable val : token -> option pystr.

Lemma single_pass_skip :
  forall s k, single_pass_from val k s = single_pass_from val 0 (skipn k s).
Proof.
  induction s as [|c s IH]; intros k.
  - now destruct k.
  - destruct k as [|k]; [reflexivity|]. simpl. apply IH.
Qed.

Lemma single_pass_char c s :
  c <> LBRACE ->
  single_pass_from val 0 (c :: s) = c :: single_pass_from val 0 s.
Proof.
  intros H. cbn [single_pass_from]. now rewrite (which_token_no_brace s H).
Qed.

Lemma single_pass_word w s :
  mem LBRACE w = false ->
  single_pass_from val 0 (w ++ s) = w ++ single_pass_from val 0 s.
Proof.
  induction w as [|c w IH]; intros H; [reflexivity|].
  cbn [mem] in H. apply orb_false_iff in H as [Hc Hw].
  cbn [app]. rewrite single_pass_char, IH; auto.
  apply N.eqb_neq. now rewrite N.eqb_sym.
Qed.

(** At a token its value is written, or the token kept when it has none. *)
Lemma single_pass_token t s :
  single_pass_from val 0 (token_text t ++ s) =
  match val t with Some v => v | None => token_text t end ++
  single_pass_from val 0 s.
Proof.
  assert (W := which_token_text t s).
  rewrite token_text_brace in *. cbn [app] in *.
  cbn [single_pass_from]. rewrite W. destruct (val t) as [v|].
  - f_equal. rewrite single_pass_skip.
    replace (List.length (token_text t) - 1) with (List.length (token_body t))
      by (rewrite token_text_brace; simpl; lia).
    now rewrite skipn_length_app.
  - cbn [app]. f_equal. apply single_pass_word, token_body_no_brace.
Qed.

End SinglePass.

Lemma single_pass_ext val val' :
  (forall t, val t = val' t) ->
  forall s k, single_pass_from val k s = single_pass_from val' k s.
Proof.
  intros E. induction s as [|c s IH]; intros k; [reflexivity|].
  cbn [single_pass_from]. destruct k; [|apply IH].
  destruct (which_token (c :: s)) as [t|]; [|now rewrite IH].
  rewrite E. destruct (val' t); now rewrite IH.
Qed.

(** Without values the pass copies the template. *)
Lemma single_pass_none s :
  Tpl s -> single_pass_from (fun _ => None) 0 s = s.
Proof.
  induction 1 as [|c s Hc _ IH|t s _ IH].
  - reflexivity.
  - now rewrite single_pass_char, IH.
  - now rewrite single_pass_token, IH.
Qed.

(** One replacement of [substitute] gives one more token its value. *)
Lemma replace_single_pass val t v :
  val t = None ->
  (forall t' w, val t' = Some w -> mem LBRACE w = false) ->
  forall s, Tpl s ->
    replace (token_text t) v (single_pass_from val 0 s) =
    single_pass_from (upd val t v) 0 s.
Proof.
  intros Hnone Hval. rewrite token_text_brace. unfold replace.
  induction 1 as [|c s Hc _ IH|t' s _ IH].
  - reflexivity.
  - rewrite !single_pass_char by assumption.
    rewrite replace_miss, IH; [reflexivity|].
    cbn [startswith]. apply N.eqb_neq in Hc. rewrite N.eqb_sym in Hc.
    now rewrite Hc.
  - rewrite !single_pass_token. unfold upd at 1.
    destruct (token_eqb t' t) eqn:E.
    + apply token_eqb_eq in E; subst t'. rewrite Hnone.
      rewrite token_text_brace, replace_hit. now rewrite IH.
    + assert (Hne : t' <> t) by (intros ->; destruct t; discriminate).
      destruct (val t') as [w|] eqn:Ew.
      * rewrite replace_word, IH; [reflexivity|]. eapply Hval; eauto.
      * rewrite (token_text_brace t') at 1. cbn [app].
        rewrite replace_miss.
        -- rewrite replace_word by apply token_body_no_brace.
           rewrite IH. now rewrite (token_text_brace t').
        -- generalize (startswith_other_token
                         (single_pass_from val 0 s) Hne).
           now rewrite !token_text_brace.
Qed.

(** The three replacements are the single pass when every opening brace of
    the template starts a token and the platform and user values have no
    opening brace. *)
Lemma substitute_single_pass s p u m :
  Tpl s -> mem LBRACE p = false -> mem LBRACE u = false ->
  substitute s p u m = single_pass_from (values p u m) 0 s.
Proof.
  intros Hs Hp Hu. unfold substitute.
  rewrite <- (single_pass_none Hs) at 1.
  change (py "{platform}") with (token_text TokPlatform).
  change (py "{user}") with (token_text TokUser).
  change (py "{message}") with (token_text TokMessage).
  rewrite replace_single_pass; auto; [|discriminate].
  rewrite replace_single_pass; auto.
  - rewrite replace_single_pass; auto.
    + apply single_pass_ext. now intros [].
    + intros [] w H; inversion H; subst; auto.
  - intros [] w H; inversion H; subst; auto.
Qed.

(** The output of the single pass has no opening brace when the values
    have none. *)
Lemma single_pass_no_brace s p u m :
  Tpl s -> mem LBRACE p = false -> mem LBRACE u = false ->
  mem LBRACE m = false ->
  mem LBRACE (single_pass_from (values p u m) 0 s) = false.
Proof.
  intros Hs Hp Hu Hm.
  induction Hs as [|c s Hc _ IH|t s _ IH].
  - reflexivity.
  - rewrite single_pass_char by assumption. cbn [mem].
    apply N.eqb_neq in Hc. rewrite N.eqb_sym in Hc. now rewrite Hc, IH.
  - rewrite single_pass_token, mem_app, IH.
    destruct t; simpl; now rewrite ?Hp, ?Hu, ?Hm.
Qed.

Lemma DEFAULT_TEMPLATE_ok : braces_ok DEFAULT_TEMPLATE = true.
Proof. reflexivity. Qed.

Lemma effective_template_Tpl t :
  braces_ok t = true ->
  Tpl match t with [] => DEFAULT_TEMPLATE | _ :: _ => t end.
Proof.
  intros H. destruct t; apply braces_ok_Tpl; [reflexivity | exact H].
Qed.

Example render_scenario_B :
  render (py "{platform} - {user}: {message}") (py "Steam") (py "Zed")
    (py "hello world") = py "Steam - Zed: hello world".
Proof. vm_compute. reflexivity. Qed.

Example render_repeated_tokens :
  render (py "{user} {user} {message}{platform}") (py "P") (py "U") (py "M")
  = py "U U MP".
Proof. vm_compute. reflexivity. Qed.

Example render_empty_template :
  render [] (py "Xbox") (py "Ann") (py "hi") =
  [129503%N] ++ py " Xbox " ++ [8212%N] ++ py " **Ann**: hi".
Proof. vm_compute. reflexivity. Qed.

(** C2 (as stated, refuted): the template [{platform} {message}] with the
    platform value [{message}] and the message value [m] renders to [m m]:
    the token text brought in by the platform value is replaced by the later
    replacement of [{message}]. *)
Lemma C2_substituted_value_is_rescanned :
  render (py "{platform} {message}") (py "{message}") (py "u") (py "m")
    = py "m m" /\
  render (py "{platform} {message}") (py "{message}") (py "u") (py "m")
    <> py "{message} m".
Proof. split; vm_compute; [reflexivity | discriminate]. Qed.

(** C2 (amended): rendering is three replacements in a row, each over the
    result of the one before.  It is the single pass over the original
    template with fixed values whenever every opening brace of the template
    starts a token and the platform and the user value have no opening
    brace; the message value, replaced last, is never scanned. *)
Theorem C2_single_pass_without_braces_in_values (t p u m : pystr) :
  braces_ok t = true ->
  mem LBRACE p = false -> mem LBRACE u = false ->
  render t p u m = render_single_pass t p u m.
Proof.
  intros Ht Hp Hu. unfold render, render_single_pass.
  apply substitute_single_pass; auto. now apply effective_template_Tpl.
Qed.

Lemma C2_single_pass_without_braces_in_values_witness :
  render (py "{platform} - {user}: {message}") (py "Steam") (py "Zed")
    (py "{user} said {message}") =
  render_single_pass (py "{platform} - {user}: {message}") (py "Steam")
    (py "Zed") (py "{user} said {message}").
Proof.
  apply (@C2_single_pass_without_braces_in_values
           (py "{platform} - {user}: {message}") (py "Steam") (py "Zed")
           (py "{user} said {message}")); vm_compute; reflexivity.
Defined.

(** C8 (as stated, refuted): in the template [{u{user}er}] the token
    [{user}] occurs exactly once and the values [Steam], [s] and [hi] have
    no brace at all, yet the output is [{user}]: the token is in the output,
    and rendering the output again gives something else. *)
Lemma C8_token_survives_in_output :
  let t := py "{u{user}er}" in
  let out := render t (py "Steam") (py "s") (py "hi") in
  mem LBRACE (py "Steam" ++ py "s" ++ py "hi") = false /\
  contains (py "}") (py "Steam" ++ py "s" ++ py "hi") = false /\
  occurrences (py "{user}") t = 1 /\
  out = py "{user}" /\
  contains (py "{user}") out = true /\
  render out (py "Steam") (py "s") (py "hi") <> out.
Proof. repeat split; vm_compute; first [reflexivity | discriminate]. Qed.

(** C8 (amended): when the field values have no opening brace and every
    opening brace of the template starts a token, the output contains none
    of the three tokens, however often they occur in the template, and
    substituting into the output again leaves it as it is. *)
Theorem C8_render_leaves_no_token (t p u m : pystr) :
  braces_ok t = true ->
  mem LBRACE p = false -> mem LBRACE u = false -> mem LBRACE m = false ->
  contains (py "{platform}") (render t p u m) = false /\
  contains (py "{user}") (render t p u m) = false /\
  contains (py "{message}") (render t p u m) = false /\
  substitute (render t p u m) p u m = render t p u m.
Proof.
  intros Ht Hp Hu Hm.
  assert (Hout : mem LBRACE (render t p u m) = false).
  { unfold render. rewrite substitute_single_pass; auto.
    - apply single_pass_no_brace; auto. now apply effective_template_Tpl.
    - now apply effective_template_Tpl. }
  repeat split; try (apply (contains_no_head _ _ _ Hout)).
  unfold substitute.
  change (py "{platform}") with (LBRACE :: token_body TokPlatform).
  change (py "{user}") with (LBRACE :: token_body TokUser).
  change (py "{message}") with (LBRACE :: token_body TokMessage).
  now rewrite !(fun old new => @replace_word_all _ old new _ Hout).
Qed.

Lemma C8_render_leaves_no_token_witness :
  let out :=
    render (py "{platform} - {user}: {message} ({user})") (py "Steam")
      (py "Zed") (py "hello world") in
  contains (py "{platform}") out = false /\
  contains (py "{user}") out = false /\
  contains (py "{message}") out = false /\
  substitute out (py "Steam") (py "Zed") (py "hello world") = out.
Proof.
  apply (@C8_render_leaves_no_token
           (py "{platform} - {user}: {message} ({user})") (py "Steam")
           (py "Zed") (py "hello world")); vm_compute; reflexivity.
Defined.

(** ** The window *)

Section MainWindowFacts.

Variable PyFloat : Type.
Variable float_of_str : pystr -> option PyFloat.
Variable os_path_exists : pystr -> bool.
Variable requests_post : list (pystr * pystr) -> pystr -> pystr -> http_reply.

Abbreviation window := (MainWindow PyFloat).
Abbreviation post := (@post_webhook PyFloat requests_post).
Abbreviation new_chat := (@on_new_chat PyFloat requests_post).
Abbreviation start := (@start_watching PyFloat float_of_str os_path_exists).
Abbreviation toggle := (@toggle_watch PyFloat float_of_str os_path_exists).

(** What [post_webhook] does for each reply of [requests.post]. *)
Lemma post_webhook_cases (w : window) (url content : pystr) :
  fst (post url content w) =
  match requests_post (http_posts w) url content with
  | Response sc body =>
      if (sc =? 200)%Z || (sc =? 204)%Z then Ok Delivered
      else Ok (Failed (py "HTTP " ++ str_of_int sc ++ py " - " ++ body))
  | Fails e =>
      if derives_Exception (exn_class e) then Ok (Failed (exn_str e))
      else Raised e
  end.
Proof.
  unfold post_webhook, try_except_Exception, bind, do_requests_post.
  destruct (requests_post (http_posts w) url content) as [sc body|e].
  - now destruct ((sc =? 200)%Z || (sc =? 204)%Z).
  - now destruct (derives_Exception (exn_class e)).
Qed.

Lemma post_webhook_posts_once (w : window) (url content : pystr) :
  http_posts (snd (post url content w)) = http_posts w ++ [(url, content)].
Proof.
  unfold post_webhook, try_except_Exception, bind, do_requests_post.
  destruct (requests_post (http_posts w) url content) as [sc body|e].
  - now destruct ((sc =? 200)%Z || (sc =? 204)%Z).
  - now destruct (derives_Exception (exn_class e)).
Qed.

(** C3: a response with status 200 or 204 gives [Delivered]; a response
    with another status gives [Failed] with a reason that contains the
    status code and the response body; an error raised by the request (an
    [Exception]) gives [Failed] with the description of the error as
    reason. *)
Theorem C3_post_webhook_outcome (w : window) (url content : pystr) :
  (forall sc body,
      requests_post (http_posts w) url content = Response sc body ->
      sc = 200%Z \/ sc = 204%Z ->
      fst (post url content w) = Ok Delivered) /\
  (forall sc body,
      requests_post (http_posts w) url content = Response sc body ->
      sc <> 200%Z -> sc <> 204%Z ->
      exists reason,
        fst (post url content w) = Ok (Failed reason) /\
        reason = py "HTTP " ++ str_of_int sc ++ py " - " ++ body /\
        contains (str_of_int sc) reason = true /\
        contains body reason = true) /\
  (forall e,
      requests_post (http_posts w) url content = Fails e ->
      derives_Exception (exn_class e) = true ->
      fst (post url content w) = Ok (Failed (exn_str e)) /\
      contains (exn_str e) (exn_str e) = true).
Proof.
  split; [|split].
  - intros sc body Hr Hsc. rewrite post_webhook_cases, Hr.
    destruct Hsc as [-> | ->]; reflexivity.
  - intros sc body Hr H200 H204. rewrite post_webhook_cases, Hr.
    apply Z.eqb_neq in H200, H204. rewrite H200, H204. cbn [orb].
    eexists. split; [reflexivity|]. split; [reflexivity|]. split.
    + apply contains_app.
    + rewrite !app_assoc.
      generalize (contains_app body ((py "HTTP " ++ str_of_int sc) ++ py " - ") []).
      now rewrite !app_nil_r.
  - intros e Hr He. rewrite post_webhook_cases, Hr, He.
    split; [reflexivity | apply contains_self].
Qed.


(** C4: with a blank webhook field (empty or white space only)
    [on_new_chat] logs the prepared message and the skip line, and posts
    nothing: the list of posts is as before, and the run is the same
    whatever [requests.post] would have done. *)
Theorem C4_blank_webhook_is_skipped (w : window)
  (platform_id user message : pystr) :
  forallb isspace (webhook_edit w) = true ->
  fst (new_chat platform_id user message w) = Ok tt /\
  http_posts (snd (new_chat platform_id user message w)) = http_posts w /\
  app_log (snd (new_chat platform_id user message w)) =
    app_log w ++
    [ LOG_PREPARING ++
        render (template_edit w) (platform_label platform_id) user message;
      LOG_EMPTY_WEBHOOK ] /\
  (forall other_post,
      @on_new_chat PyFloat other_post platform_id user message w =
      new_chat platform_id user message w).
Proof.
  intros Hblank. unfold on_new_chat, bind, gets. simpl.
  rewrite (strip_blank _ Hblank). simpl.
  repeat split. now rewrite <- app_assoc.
Qed.

(** C7: a start with an empty file path, or with a path that does not
    exist, logs one line and changes nothing else: no worker is created, no
    thread started, and the session state is as before, so an idle session
    stays idle; [toggle_watch] in an idle session is such a start. *)
Theorem C7_start_rejected (w : window) :
  file_edit w = [] \/ os_path_exists (file_edit w) = false ->
  fst (start w) = Ok tt /\
  app_log (snd (start w)) = app_log w ++ [LOG_BAD_PATH] /\
  tail_worker (snd (start w)) = tail_worker w /\
  threads_started (snd (start w)) = threads_started w /\
  session_state (snd (start w)) = session_state w /\
  (session_state w = Idle ->
   toggle w = start w /\ session_state (snd (toggle w)) = Idle).
Proof.
  intros Hbad.
  assert (E : start w = append_log LOG_BAD_PATH w).
  { unfold start_watching, bind, gets.
    destruct Hbad as [H|H]; rewrite H; [reflexivity|].
    now rewrite orb_true_r. }
  assert (T : session_state w = Idle -> toggle w = start w).
  { unfold session_state, toggle_watch, bind, gets.
    destruct (tail_worker w); [|reflexivity].
    destruct (worker_isRunning w); [discriminate | reflexivity]. }
  rewrite E. do 5 (split; [reflexivity|]).
  intros HI. rewrite (T HI), E. split; [reflexivity | exact HI].
Qed.

End MainWindowFacts.

(** ** Concrete runs *)

Example post_webhook_204 :
  fst (post_webhook (reply_status 204 []) (py "https://hook") (py "hi")
         (demo_window (py "log.txt") (py "https://hook"))) = Ok Delivered.
Proof. reflexivity. Qed.

Example post_webhook_404 :
  fst (post_webhook (reply_status 404 (py "Not Found")) (py "https://hook")
         (py "hi") (demo_window (py "log.txt") (py "https://hook")))
  = Ok (Failed (py "HTTP 404 - Not Found")).
Proof. vm_compute. reflexivity. Qed.

Example post_webhook_timeout :
  fst (post_webhook (reply_raises RequestsTimeout (py "timed out"))
         (py "https://hook") (py "hi")
         (demo_window (py "log.txt") (py "https://hook")))
  = Ok (Failed (py "timed out")).
Proof. vm_compute. reflexivity. Qed.

(** An exception outside [Exception] is not caught by the handler. *)
Example post_webhook_keyboard_interrupt :
  fst (post_webhook (reply_raises KeyboardInterrupt []) (py "https://hook")
         (py "hi") (demo_window (py "log.txt") (py "https://hook")))
  = Raised (mkExn KeyboardInterrupt []).
Proof. reflexivity. Qed.

Example on_new_chat_delivers :
  let w := snd (on_new_chat (reply_status 204 []) (py "Steam_123") (py "Zed")
                  (py "hello world")
                  (demo_window (py "log.txt") (py " https://hook "))) in
  http_posts w = [(py "https://hook", py "Steam - Zed: hello world")] /\
  app_log w = [LOG_PREPARING ++ py "Steam - Zed: hello world"; LOG_SENT].
Proof. split; vm_compute; reflexivity. Qed.

Example start_watching_starts :
  let w := snd (start_watching (fun _ => Some tt) (fun _ => true)
                  (demo_window (py "log.txt") [])) in
  tail_worker w = Some (mkWorker (py "log.txt") tt) /\
  threads_started w = [mkWorker (py "log.txt") tt] /\
  session_state w = Running /\
  app_log w = [py "Vigilancia iniciada."].
Proof. repeat split. Qed.


Lemma C4_blank_webhook_is_skipped_witness :
  let rp := reply_status 204 [] in
  let w := demo_window (py "log.txt") (py "   ") in
  fst (on_new_chat rp (py "Steam_123") (py "Zed") (py "hello world") w) = Ok tt /\
  http_posts
    (snd (on_new_chat rp (py "Steam_123") (py "Zed") (py "hello world") w)) =
    http_posts w /\
  app_log
    (snd (on_new_chat rp (py "Steam_123") (py "Zed") (py "hello world") w)) =
    app_log w ++
    [ LOG_PREPARING ++
        render (template_edit w) (platform_label (py "Steam_123")) (py "Zed")
          (py "hello world");
      LOG_EMPTY_WEBHOOK ] /\
  (forall other_post,
      on_new_chat other_post (py "Steam_123") (py "Zed") (py "hello world") w =
      on_new_chat rp (py "Steam_123") (py "Zed") (py "hello world") w).
Proof.
  apply (@C4_blank_webhook_is_skipped unit (reply_status 204 [])
           (demo_window (py "log.txt") (py "   "))
           (py "Steam_123") (py "Zed") (py "hello world")).
  vm_compute. reflexivity.
Defined.

Lemma C7_start_rejected_witness :
  let fl := fun _ : pystr => Some tt in
  let ex := fun _ : pystr => false in
  let w := demo_window (py "/no/such/file.txt") [] in
  fst (start_watching fl ex w) = Ok tt /\
  app_log (snd (start_watching fl ex w)) = app_log w ++ [LOG_BAD_PATH] /\
  tail_worker (snd (start_watching fl ex w)) = tail_worker w /\
  threads_started (snd (start_watching fl ex w)) = threads_started w /\
  session_state (snd (start_watching fl ex w)) = session_state w /\
  (session_state w = Idle ->
   toggle_watch fl ex w = start_watching fl ex w /\
   session_state (snd (toggle_watch fl ex w)) = Idle).
Proof.
  apply (@C7_start_rejected unit (fun _ : pystr => Some tt)
           (fun _ : pystr => false) (demo_window (py "/no/such/file.txt") [])).
  right. reflexivity.
Defined.

(** * Further properties of the code *)

(** ** Stripping *)

Section StripFacts.

Variable chars : list char.

Lemma lstrip_chars_split s :
  exists a, s = a ++ lstrip_chars chars s /\ all_in chars a = true.
Proof.
  induction s as [|c s (a & E & Ha)]; [now exists []|].
  cbn [lstrip_chars]. destruct (mem c chars) eqn:Hc.
  - exists (c :: a). split; [now rewrite E at 1|].
    unfold all_in in *. cbn [forallb]. now rewrite Hc, Ha.
  - now exists [].
Qed.

Lemma lstrip_chars_head s c r :
  lstrip_chars chars s = c :: r -> mem c chars = false.
Proof.
  induction s as [|d s IH]; cbn [lstrip_chars]; [discriminate|].
  destruct (mem d chars) eqn:Hd; [exact IH|].
  intros H; inversion H; now subst.
Qed.

Lemma lstrip_chars_fixed s :
  (forall c r, s = c :: r -> mem c chars = false) ->
  lstrip_chars chars s = s.
Proof.
  destruct s as [|c s]; [reflexivity|]. intros H.
  cbn [lstrip_chars]. now rewrite (H c s eq_refl).
Qed.

Lemma lstrip_chars_all s : all_in chars s = true -> lstrip_chars chars s = [].
Proof.
  unfold all_in. induction s as [|c s IH]; cbn [forallb lstrip_chars];
    [reflexivity|].
  intros H. apply andb_true_iff in H as [Hc Hs]. now rewrite Hc, IH.
Qed.

Lemma all_in_rev s : all_in chars (rev s) = all_in chars s.
Proof.
  unfold all_in. induction s as [|c s IH]; [reflexivity|].
  cbn [rev forallb]. rewrite forallb_app, IH. cbn [forallb].
  now rewrite andb_true_r, andb_comm.
Qed.

(** What [strip] removes are characters of [chars] at the two edges. *)
Lemma strip_chars_split s :
  exists a b,
    s = a ++ strip_chars chars s ++ b /\
    all_in chars a = true /\ all_in chars b = true.
Proof.
  unfold strip_chars, rstrip_chars.
  destruct (lstrip_chars_split s) as (a & Ea & Ha).
  destruct (lstrip_chars_split (rev (lstrip_chars chars s))) as (b & Eb & Hb).
  exists a, (rev b). repeat split; auto.
  - rewrite <- rev_app_distr, <- Eb, rev_involutive. exact Ea.
  - now rewrite all_in_rev.
Qed.

Lemma strip_chars_first s c r :
  strip_chars chars s = c :: r -> mem c chars = false.
Proof.
  unfold strip_chars, rstrip_chars. intros H.
  destruct (lstrip_chars_split (rev (lstrip_chars chars s))) as (b & Eb & _).
  apply (f_equal (@rev char)) in Eb. rewrite rev_involutive, rev_app_distr in Eb.
  rewrite H in Eb. cbn [app] in Eb.
  apply (lstrip_chars_head _ Eb).
Qed.

Lemma strip_chars_last s c r :
  strip_chars chars s = r ++ [c] -> mem c chars = false.
Proof.
  unfold strip_chars, rstrip_chars. intros H.
  apply (f_equal (@rev char)) in H.
  rewrite rev_involutive, rev_app_distr in H. cbn [rev app] in H.
  apply (lstrip_chars_head _ H).
Qed.

Lemma strip_chars_idempotent s :
  strip_chars chars (strip_chars chars s) = strip_chars chars s.
Proof.
  set (x := strip_chars chars s).
  assert (H1 : lstrip_chars chars x = x).
  { apply lstrip_chars_fixed. intros c r E. now apply (@strip_chars_first s c r). }
  unfold strip_chars at 1, rstrip_chars. rewrite H1.
  rewrite lstrip_chars_fixed; [apply rev_involutive|].
  intros c r E. apply (@strip_chars_last s c (rev r)).
  fold x. now rewrite <- (rev_involutive x), E.
Qed.

Lemma strip_chars_all s : all_in chars s = true -> strip_chars chars s = [].
Proof.
  intros H. unfold strip_chars. now rewrite (lstrip_chars_all _ H).
Qed.

Lemma strip_chars_mem s c :
  mem c s = false -> mem c (strip_chars chars s) = false.
Proof.
  destruct (strip_chars_split s) as (a & b & E & _).
  intros H. rewrite E, !mem_app in H.
  apply orb_false_iff in H as [_ H]. now apply orb_false_iff in H as [H _].
Qed.

Lemma strip_chars_contains s : contains (strip_chars chars s) s = true.
Proof.
  destruct (strip_chars_split s) as (a & b & E & _).
  rewrite E at 2. apply contains_app.
Qed.

End StripFacts.

(** ** More on the extraction *)

Lemma search_skip c p pre s :
  mem c pre = false -> search (Lit c :: p) (pre ++ s) = search (Lit c :: p) s.
Proof.
  induction pre as [|d pre IH]; intros H; [reflexivity|].
  cbn [mem] in H. apply orb_false_iff in H as [Hd Hpre].
  cbn [app search match_here]. rewrite Hd. now apply IH.
Qed.

(** The groups of a match are pieces of the text matched. *)
Lemma match_here_pieces p :
  forall s groups,
    match_here p s = Some groups ->
    Forall (fun g => exists a b, s = a ++ g ++ b) groups.
Proof.
  induction p as [|n p IH]; intros s groups H; simpl in H.
  - inversion H. constructor.
  - destruct n as [c|capture greedy min cs|].
    + destruct s as [|d s]; [discriminate|].
      destruct (N.eqb c d); [|discriminate].
      eapply Forall_impl; [|apply (IH _ _ H)].
      intros g (a & b & ->). now exists (d :: a), b.
    + apply repeat_match_sound in H as (run & rest & -> & _ & _ & Hk).
      simpl in Hk. destruct (match_here p rest) as [g'|] eqn:Hp; [|discriminate].
      assert (Hrest : Forall (fun g => exists a b, run ++ rest = a ++ g ++ b) g').
      { eapply Forall_impl; [|apply (IH _ _ Hp)].
        intros g (a & b & ->). exists (run ++ a), b. now rewrite app_assoc. }
      inversion Hk; subst. destruct capture; [constructor|]; auto.
      now exists [], rest.
    + destruct (at_end s); [|discriminate]. eauto.
Qed.

Lemma search_pieces p s groups :
  search p s = Some groups -> Forall (fun g => contains g s = true) groups.
Proof.
  intros H. apply search_sound in H as (pre & rest & -> & Hm).
  eapply Forall_impl; [|apply (match_here_pieces _ _ Hm)].
  intros g (a & b & ->). rewrite app_assoc. apply contains_app.
Qed.

Lemma contains_trans a b c :
  contains a b = true -> contains b c = true -> contains a c = true.
Proof.
  assert (Hc : forall p s, contains p s = true -> exists x y, s = x ++ p ++ y).
  { intros p s. induction s as [|d s IH]; cbn [contains]; intros H.
    - rewrite orb_false_r in H. apply startswith_inv in H as [r ->].
      now exists [], r.
    - apply orb_true_iff in H as [H|H].
      + apply startswith_inv in H as [r ->]. now exists [], r.
      + destruct (IH H) as (x & y & ->). now exists (d :: x), y. }
  intros H1 H2. destruct (Hc _ _ H1) as (x & y & ->).
  destruct (Hc _ _ H2) as (x' & y' & ->).
  rewrite <- !app_assoc, app_assoc. apply contains_app.
Qed.

(** X1: text in front of a chat line that has no capital C (a time stamp,
    a log level in other letters) does not change what is extracted. *)
Theorem X1_prefix_without_C_is_ignored (pre line : pystr) :
  mem (N_of_ascii "C") pre = false ->
  chat_of_line (pre ++ line) = chat_of_line line.
Proof.
  intros H. unfold chat_of_line.
  change CHAT_LINE_RE with (Lit (N_of_ascii "C") :: tl CHAT_LINE_RE).
  now rewrite search_skip.
Qed.

Lemma X1_prefix_without_C_is_ignored_witness :
  chat_of_line (py "2024-05-01T10:00:00 12.3 INF " ++
                py "Chat (from 'Steam_1', e): 'Zed': hi") =
  chat_of_line (py "Chat (from 'Steam_1', e): 'Zed': hi").
Proof.
  apply (@X1_prefix_without_C_is_ignored (py "2024-05-01T10:00:00 12.3 INF ")).
  vm_compute. reflexivity.
Defined.

(** X2: the message of a chat event has no newline, does not start and does
    not end with a space, a single or a double quote, and stripping it again
    changes nothing. *)
Theorem X2_message_edges_are_clean (line : pystr) (e : ChatEvent) :
  chat_of_line line = Some e ->
  mem NEWLINE (message e) = false /\
  (forall c r, message e = c :: r -> mem c MESSAGE_EDGE = false) /\
  (forall c r, message e = r ++ [c] -> mem c MESSAGE_EDGE = false) /\
  strip_chars MESSAGE_EDGE (message e) = message e.
Proof.
  unfold chat_of_line. intros H.
  destruct (search CHAT_LINE_RE line) as [groups|] eqn:Hs; [|discriminate].
  destruct (chat_groups _ Hs) as (g1 & g2 & g3 & -> & _ & _ & _ & _ & _ & Hn).
  inversion H; subst e; cbn [message].
  split; [now apply strip_chars_mem|]. split; [|split].
  - intros c r. apply strip_chars_first.
  - intros c r. apply strip_chars_last.
  - apply strip_chars_idempotent.
Qed.

Lemma X2_message_edges_are_clean_witness :
  let m := py "hi 'there" in
  mem NEWLINE m = false /\
  (forall c r, m = c :: r -> mem c MESSAGE_EDGE = false) /\
  (forall c r, m = r ++ [c] -> mem c MESSAGE_EDGE = false) /\
  strip_chars MESSAGE_EDGE m = m.
Proof.
  apply (@X2_message_edges_are_clean
           (py "Chat (from 'Steam_1', e): 'Zed':  'hi 'there' ")
           (mkChat (py "Steam_1") (py "Zed") (py "hi 'there"))).
  vm_compute. reflexivity.
Defined.

(** X3: writing the fields of a chat event with a non-empty message back
    into a chat line (with any qualifier without closing parenthesis and
    newline) gives a line that matches with the same event; a text read
    that trims to this line makes the loop emit this event and no other. *)
Theorem X3_event_round_trip (line Q raw : pystr) (e : ChatEvent) :
  chat_of_line line = Some e ->
  message e <> [] ->
  mem RPAREN Q = false -> mem NEWLINE Q = false ->
  strip raw = qualified_line (platformId e) Q (user e) (message e) ->
  chat_of_line (qualified_line (platformId e) Q (user e) (message e)) = Some e /\
  new_chats (run_line raw) = [e].
Proof.
  unfold chat_of_line at 1. intros H Hm HQp HQn Hraw.
  destruct (search CHAT_LINE_RE line) as [groups|] eqn:Hs; [|discriminate].
  destruct (chat_groups _ Hs) as
    (g1 & g2 & g3 & -> & H1 & Q1 & H2 & Q2 & _ & Hn).
  inversion H; subst e; cbn [platformId user message] in *.
  assert (E : chat_of_line
                (qualified_line g1 Q g2 (strip_chars MESSAGE_EDGE g3)) =
              Some (mkChat g1 g2 (strip_chars MESSAGE_EDGE g3))).
  { unfold chat_of_line.
    rewrite (@qualified_line_groups g1 Q g2 (strip_chars MESSAGE_EDGE g3));
      auto using strip_chars_mem.
    now rewrite strip_chars_idempotent. }
  split; [exact E|]. now rewrite new_chats_run_line, Hraw, E.
Qed.

Lemma X3_event_round_trip_witness :
  let e := mkChat (py "Steam_1") (py "Zed") (py "hi all") in
  let back := qualified_line (py "Steam_1") (py " to 'Global'") (py "Zed")
                (py "hi all") in
  chat_of_line back = Some e /\
  new_chats (run_line (back ++ [NEWLINE])) = [e].
Proof.
  apply (@X3_event_round_trip
           (py "12.3 INF Chat (from 'Steam_1', entity id '171'): 'Zed': 'hi all'")
           (py " to 'Global'")
           (qualified_line (py "Steam_1") (py " to 'Global'") (py "Zed")
              (py "hi all") ++ [NEWLINE])
           (mkChat (py "Steam_1") (py "Zed") (py "hi all")));
    vm_compute; first [reflexivity | discriminate].
Defined.

(** X4: a chat line whose message is made of spaces and quotes only, and
    that is what a text read trims to (so the message ends in a quote), is
    not dropped: the loop emits an event with the empty message. *)
Theorem X4_message_of_quotes_is_empty (P Q U M raw : pystr) :
  P <> [] -> mem QUOTE P = false ->
  mem RPAREN Q = false -> mem NEWLINE Q = false ->
  U <> [] -> mem QUOTE U = false ->
  M <> [] -> all_in MESSAGE_EDGE M = true ->
  strip raw = qualified_line P Q U M ->
  chat_of_line (qualified_line P Q U M) = Some (mkChat P U []) /\
  new_chats (run_line raw) = [mkChat P U []].
Proof.
  intros HP HPq HQp HQn HU HUq HM Hall Hraw.
  assert (HMn : mem NEWLINE M = false).
  { clear HM Hraw. unfold all_in in Hall.
    induction M as [|c M IH]; [reflexivity|].
    cbn [forallb] in Hall. apply andb_true_iff in Hall as [Hc Hall].
    cbn [mem]. rewrite (IH Hall), orb_false_r.
    destruct (N.eqb NEWLINE c) eqn:E; [|reflexivity].
    apply N.eqb_eq in E; subst c. discriminate Hc. }
  assert (E : chat_of_line (qualified_line P Q U M) = Some (mkChat P U [])).
  { unfold chat_of_line.
    rewrite (qualified_line_groups Q HP HPq HQp HQn HU HUq HM HMn).
    now rewrite strip_chars_all. }
  split; [exact E|]. now rewrite new_chats_run_line, Hraw, E.
Qed.

Lemma X4_message_of_quotes_is_empty_witness :
  let line := qualified_line (py "PSN_7") (py " e") (py "Ann") (py " ''") in
  chat_of_line line = Some (mkChat (py "PSN_7") (py "Ann") []) /\
  new_chats (run_line (line ++ [NEWLINE])) = [mkChat (py "PSN_7") (py "Ann") []].
Proof.
  apply (@X4_message_of_quotes_is_empty
           (py "PSN_7") (py " e") (py "Ann") (py " ''")
           (qualified_line (py "PSN_7") (py " e") (py "Ann") (py " ''")
            ++ [NEWLINE]));
    vm_compute; first [reflexivity | discriminate].
Defined.

(** X5: the platform id, the user and the message of a chat event are
    pieces of the line, as they stand in it. *)
Theorem X5_fields_are_pieces_of_the_line (line : pystr) (e : ChatEvent) :
  chat_of_line line = Some e ->
  contains (platformId e) line = true /\
  contains (user e) line = true /\
  contains (message e) line = true.
Proof.
  unfold chat_of_line. intros H.
  destruct (search CHAT_LINE_RE line) as [groups|] eqn:Hs; [|discriminate].
  destruct (chat_groups _ Hs) as (g1 & g2 & g3 & -> & _).
  apply search_pieces in Hs.
  inversion Hs as [|x1 l1 C1 Hs1]; subst.
  inversion Hs1 as [|x2 l2 C2 Hs2]; subst.
  inversion Hs2 as [|x3 l3 C3 Hs3]; subst.
  inversion H; subst e; cbn [platformId user message].
  repeat split; auto.
  apply contains_trans with (b := g3); auto. apply strip_chars_contains.
Qed.

Lemma X5_fields_are_pieces_of_the_line_witness :
  let line := py "Chat (from 'Xbox_9', e): 'Bo': 'gg'" in
  contains (py "Xbox_9") line = true /\
  contains (py "Bo") line = true /\
  contains (py "gg") line = true.
Proof.
  apply (@X5_fields_are_pieces_of_the_line
           (py "Chat (from 'Xbox_9', e): 'Bo': 'gg'")
           (mkChat (py "Xbox_9") (py "Bo") (py "gg"))).
  vm_compute. reflexivity.
Defined.

(** ** Lines read *)

Lemma lstrip_nil_all_space s : lstrip s = [] -> forallb isspace s = true.
Proof.
  induction s as [|c s IH]; cbn [lstrip forallb]; [reflexivity|].
  destruct (isspace c); [exact IH | discriminate].
Qed.

Lemma lstrip_head s c r : lstrip s = c :: r -> isspace c = false.
Proof.
  induction s as [|d s IH]; cbn [lstrip]; [discriminate|].
  destruct (isspace d) eqn:Hd; [exact IH|].
  intros H; inversion H; now subst.
Qed.

Lemma forallb_rev (f : char -> bool) s : forallb f (rev s) = forallb f s.
Proof.
  induction s as [|c s IH]; [reflexivity|].
  cbn [rev forallb]. rewrite forallb_app, IH. cbn [forallb].
  now rewrite andb_true_r, andb_comm.
Qed.

Lemma strip_nil_iff s : strip s = [] <-> forallb isspace s = true.
Proof.
  split; [|apply strip_blank].
  unfold strip. intros H.
  apply (f_equal (@rev char)) in H. rewrite rev_involutive in H. cbn [rev] in H.
  apply lstrip_nil_all_space in H. rewrite forallb_rev in H.
  destruct (lstrip s) as [|c r] eqn:E; [now apply lstrip_nil_all_space|].
  apply lstrip_head in E. cbn [forallb] in H. now rewrite E in H.
Qed.

(** X6: a text read from the log gives no signal exactly when it is blank;
    otherwise its first signal is the log of the trimmed line, and it gives
    one [new_chat] when the trimmed line is a chat line and none when it is
    not. *)
Theorem X6_signals_of_a_line (raw : pystr) :
  (run_line raw = [] <-> forallb isspace raw = true) /\
  (forall s rest, run_line raw = s :: rest ->
                  s = SigLog (py "Linea detectada: " ++ strip raw)) /\
  new_chats (run_line raw) =
    match chat_of_line (strip raw) with
    | Some e => [e]
    | None => []
    end.
Proof.
  rewrite <- strip_nil_iff. unfold run_line.
  destruct (strip raw) as [|c line] eqn:E.
  - repeat split; auto; discriminate.
  - repeat split; try discriminate.
    + intros s rest H. now inversion H.
    + now destruct (chat_of_line (c :: line)) as [[p u m]|].
Qed.

(** ** More on rendering *)

Lemma Tpl_app s1 s2 : Tpl s1 -> Tpl s2 -> Tpl (s1 ++ s2).
Proof.
  induction 1 as [|c s Hc _ IH|t s _ IH]; intros H2; cbn [app].
  - exact H2.
  - constructor; auto.
  - rewrite <- app_assoc. constructor; auto.
Qed.

Lemma single_pass_app val s1 s2 :
  Tpl s1 ->
  single_pass_from val 0 (s1 ++ s2) =
  single_pass_from val 0 s1 ++ single_pass_from val 0 s2.
Proof.
  induction 1 as [|c s Hc _ IH|t s _ IH]; cbn [app].
  - reflexivity.
  - rewrite !single_pass_char by assumption. now rewrite IH.
  - rewrite <- app_assoc, !single_pass_token, IH. now rewrite app_assoc.
Qed.

(** X7: a non-empty template without an opening brace is the content, as it
    stands, whatever the event. *)
Theorem X7_template_without_brace_is_kept (t p u m : pystr) :
  t <> [] -> mem LBRACE t = false -> render t p u m = t.
Proof.
  intros Ht Hb. unfold render. destruct t as [|c t]; [congruence|].
  unfold substitute.
  change (py "{platform}") with (LBRACE :: token_body TokPlatform).
  change (py "{user}") with (LBRACE :: token_body TokUser).
  change (py "{message}") with (LBRACE :: token_body TokMessage).
  now rewrite !(fun old new => @replace_word_all _ old new _ Hb).
Qed.

Lemma X7_template_without_brace_is_kept_witness :
  render (py "somebody wrote in the chat") (py "Steam") (py "Zed")
    (py "{user}") = py "somebody wrote in the chat".
Proof.
  apply (@X7_template_without_brace_is_kept
           (py "somebody wrote in the chat") (py "Steam") (py "Zed")
           (py "{user}")); vm_compute; first [reflexivity | discriminate].
Defined.

(** X8: rendering distributes over the concatenation of two templates in
    which every opening brace starts a token, when the platform and the user
    value have no opening brace. *)
Theorem X8_substitute_concatenation (t1 t2 p u m : pystr) :
  braces_ok t1 = true -> braces_ok t2 = true ->
  mem LBRACE p = false -> mem LBRACE u = false ->
  substitute (t1 ++ t2) p u m = substitute t1 p u m ++ substitute t2 p u m.
Proof.
  intros H1 H2 Hp Hu.
  apply braces_ok_Tpl in H1, H2.
  rewrite !substitute_single_pass; auto using Tpl_app.
  now apply single_pass_app.
Qed.

Lemma X8_substitute_concatenation_witness :
  substitute (py "[{platform}] " ++ py "{user}: {message}") (py "Xbox")
    (py "Bo") (py "{user}") =
  substitute (py "[{platform}] ") (py "Xbox") (py "Bo") (py "{user}") ++
  substitute (py "{user}: {message}") (py "Xbox") (py "Bo") (py "{user}").
Proof.
  apply (@X8_substitute_concatenation (py "[{platform}] ")
           (py "{user}: {message}") (py "Xbox") (py "Bo") (py "{user}"));
    vm_compute; reflexivity.
Defined.

(** X9: with the empty template the content is the default one: the zombie
    sign, the platform label, a dash, the user in bold and the message,
    when label and user have no opening brace. *)
Theorem X9_default_template_content (p u m : pystr) :
  mem LBRACE p = false -> mem LBRACE u = false ->
  render [] p u m =
  [129503%N] ++ py " " ++ p ++ py " " ++ [8212%N] ++ py " **" ++ u ++
  py "**: " ++ m.
Proof.
  intros Hp Hu. unfold render.
  rewrite substitute_single_pass; auto; [|apply braces_ok_Tpl; reflexivity].
  change DEFAULT_TEMPLATE with
    (([129503%N] ++ py " ") ++ token_text TokPlatform ++
     (py " " ++ [8212%N] ++ py " **") ++ token_text TokUser ++
     py "**: " ++ token_text TokMessage ++ []).
  rewrite single_pass_word by reflexivity. rewrite single_pass_token.
  rewrite single_pass_word by reflexivity. rewrite single_pass_token.
  rewrite single_pass_word by reflexivity. rewrite single_pass_token.
  cbn [values single_pass_from]. rewrite app_nil_r.
  now rewrite <- !app_assoc.
Qed.

Lemma X9_default_template_content_witness :
  render [] (py "Steam") (py "Zed") (py "{user} {platform}") =
  [129503%N] ++ py " " ++ py "Steam" ++ py " " ++ [8212%N] ++ py " **" ++
  py "Zed" ++ py "**: " ++ py "{user} {platform}".
Proof.
  apply (@X9_default_template_content (py "Steam") (py "Zed")
           (py "{user} {platform}")); vm_compute; reflexivity.
Defined.

(** ** More on the window *)

Section MainWindowMore.

Variable PyFloat : Type.
Variable float_of_str : pystr -> option PyFloat.
Variable os_path_exists : pystr -> bool.
Variable requests_post : list (pystr * pystr) -> pystr -> pystr -> http_reply.

Abbreviation window' := (MainWindow PyFloat).
Abbreviation post' := (@post_webhook PyFloat requests_post).
Abbreviation new_chat' := (@on_new_chat PyFloat requests_post).
Abbreviation test' := (@test_webhook PyFloat requests_post).
Abbreviation start' := (@start_watching PyFloat float_of_str os_path_exists).
Abbreviation stop' := (@stop_watching PyFloat).
Abbreviation toggle' := (@toggle_watch PyFloat float_of_str os_path_exists).

Lemma post_webhook_state (w : window') (url content : pystr) :
  snd (post' url content w) = with_post w url content.
Proof.
  unfold post_webhook, try_except_Exception, bind, do_requests_post, with_post.
  destruct (requests_post (http_posts w) url content) as [sc body|e].
  - now destruct ((sc =? 200)%Z || (sc =? 204)%Z).
  - now destruct (derives_Exception (exn_class e)).
Qed.

(** X10: [post_webhook] makes exactly one request for each call, whatever
    the reply (there is no second attempt), writes no log line and leaves
    the rest of the window as it is. *)
Theorem X10_post_webhook_posts_once (w : window') (url content : pystr) :
  http_posts (snd (post' url content w)) = http_posts w ++ [(url, content)] /\
  app_log (snd (post' url content w)) = app_log w /\
  snd (post' url content w) = with_post w url content.
Proof. rewrite post_webhook_state. repeat split. Qed.

Lemma post_webhook_raised (w : window') (url content : pystr) (e : exn) :
  fst (post' url content w) = Raised e <->
  requests_post (http_posts w) url content = Fails e /\
  derives_Exception (exn_class e) = false.
Proof.
  rewrite post_webhook_cases.
  destruct (requests_post (http_posts w) url content) as [sc body|e'].
  - destruct ((sc =? 200)%Z || (sc =? 204)%Z);
      split; [discriminate | intros [H _]; discriminate
             | discriminate | intros [H _]; discriminate].
  - destruct (derives_Exception (exn_class e')) eqn:D; split.
    + discriminate.
    + intros [H D']. inversion H; subst. congruence.
    + intros H. inversion H; subst. auto.
    + intros [H _]. now inversion H.
Qed.

(** X11: [post_webhook] raises exactly the exceptions of the request that
    do not derive from [Exception]. *)
Theorem X11_post_webhook_propagates_only_base_exceptions
  (w : window') (url content : pystr) (e : exn) :
  fst (post' url content w) = Raised e <->
  requests_post (http_posts w) url content = Fails e /\
  derives_Exception (exn_class e) = false.
Proof. apply post_webhook_raised. Qed.

Lemma append_log_run (w : window') (text : pystr) :
  append_log text w = (Ok tt, with_log w [text]).
Proof. reflexivity. Qed.

Lemma with_log_log (w : window') (a b : list pystr) :
  with_log (with_log w a) b = with_log w (a ++ b).
Proof. unfold with_log. cbn. now rewrite app_assoc. Qed.

Lemma with_post_log (w : window') (url content : pystr) (a : list pystr) :
  with_post (with_log w a) url content = with_log (with_post w url content) a.
Proof. reflexivity. Qed.

(** What [on_new_chat] does with a webhook, by the reply of the request. *)
Lemma on_new_chat_with_webhook (w : window') (pid u m : pystr) :
  strip (webhook_edit w) <> [] ->
  let url := strip (webhook_edit w) in
  let content := render (template_edit w) (platform_label pid) u m in
  let w1 := with_post w url content in
  new_chat' pid u m w =
  match fst (post' url content (with_log w [LOG_PREPARING ++ content])) with
  | Ok r =>
      (Ok tt,
       with_log w1 [LOG_PREPARING ++ content;
                    if fst r then LOG_SENT else LOG_SEND_ERROR ++ snd r])
  | Raised e => (Raised e, with_log w1 [LOG_PREPARING ++ content])
  end.
Proof.
  intros Hurl. cbv zeta.
  unfold on_new_chat, bind, gets. cbn [fst snd].
  rewrite append_log_run.
  change (webhook_edit (with_log w
            [LOG_PREPARING ++ render (template_edit w) (platform_label pid) u m]))
    with (webhook_edit w).
  destruct (strip (webhook_edit w)) as [|c url'] eqn:E; [congruence|].
  unfold pystr in *.
  match goal with
  | |- context [post_webhook ?rp ?a ?b ?st] =>
      generalize (post_webhook_state st a b);
      destruct (post_webhook rp a b st) as [[r|e] w2]
  end; cbn [fst snd]; intros ->.
  - rewrite with_post_log.
    destruct r as [[|] reason]; cbn [fst snd];
      rewrite append_log_run, with_log_log; reflexivity.
  - now rewrite with_post_log.
Qed.

(** X12: with a webhook in the field, [on_new_chat] makes one request, to
    the trimmed address and with the rendered content, and logs the prepared
    content and then the outcome: the success line, or the error line with
    the reason. *)
Theorem X12_on_new_chat_posts_rendered_content
  (w : window') (pid u m : pystr) :
  strip (webhook_edit w) <> [] ->
  (forall h a b e, requests_post h a b = Fails e ->
                   derives_Exception (exn_class e) = true) ->
  let url := strip (webhook_edit w) in
  let content := render (template_edit w) (platform_label pid) u m in
  exists ok reason,
    fst (post' url content (with_log w [LOG_PREPARING ++ content])) =
      Ok (ok, reason) /\
    new_chat' pid u m w =
    (Ok tt,
     with_log (with_post w url content)
       [LOG_PREPARING ++ content;
        if ok then LOG_SENT else LOG_SEND_ERROR ++ reason]).
Proof.
  intros Hurl Hexc url content.
  rewrite (@on_new_chat_with_webhook w pid u m Hurl). cbv zeta. fold url content.
  destruct (fst (post' url content (with_log w [LOG_PREPARING ++ content])))
    as [[ok reason]|e] eqn:E.
  - now exists ok, reason.
  - apply post_webhook_raised in E as [E D].
    rewrite (Hexc _ _ _ _ E) in D. discriminate.
Qed.

End MainWindowMore.

Section SessionFacts.

Variable PyFloat : Type.
Variable float_of_str : pystr -> option PyFloat.
Variable os_path_exists : pystr -> bool.
Variable requests_post : list (pystr * pystr) -> pystr -> pystr -> http_reply.

Abbreviation window'' := (MainWindow PyFloat).
Abbreviation post'' := (@post_webhook PyFloat requests_post).
Abbreviation new_chat'' := (@on_new_chat PyFloat requests_post).
Abbreviation test'' := (@test_webhook PyFloat requests_post).
Abbreviation start'' := (@start_watching PyFloat float_of_str os_path_exists).
Abbreviation stop'' := (@stop_watching PyFloat).
Abbreviation toggle'' := (@toggle_watch PyFloat float_of_str os_path_exists).

Lemma on_new_chat_blank (w : window'') (pid u m : pystr) :
  strip (webhook_edit w) = [] ->
  new_chat'' pid u m w =
  (Ok tt,
   with_log w
     [LOG_PREPARING ++ render (template_edit w) (platform_label pid) u m;
      LOG_EMPTY_WEBHOOK]).
Proof.
  intros E. unfold on_new_chat, bind, gets. cbn [fst snd].
  rewrite append_log_run.
  change (webhook_edit (with_log w
            [LOG_PREPARING ++ render (template_edit w) (platform_label pid) u m]))
    with (webhook_edit w).
  rewrite E. now rewrite append_log_run, with_log_log.
Qed.

(** X13: [on_new_chat] never touches the session: worker, thread, button
    and the fields of the form are as before, whatever the network does; it
    adds lines to the log, and at most one request. *)
Theorem X13_on_new_chat_keeps_the_session (w : window'') (pid u m : pystr) :
  let w' := snd (new_chat'' pid u m w) in
  tail_worker w' = tail_worker w /\
  worker_isRunning w' = worker_isRunning w /\
  threads_started w' = threads_started w /\
  session_state w' = session_state w /\
  start_btn w' = start_btn w /\
  (file_edit w', webhook_edit w', template_edit w') =
    (file_edit w, webhook_edit w, template_edit w) /\
  (exists line lines, app_log w' = app_log w ++ line :: lines) /\
  (http_posts w' = http_posts w \/
   exists post, http_posts w' = http_posts w ++ [post]).
Proof.
  cbv zeta. destruct (strip (webhook_edit w)) as [|c url'] eqn:E.
  - rewrite (on_new_chat_blank _ _ _ _ E). cbn.
    repeat split; eauto.
  - assert (Hne : strip (webhook_edit w) <> []) by (rewrite E; discriminate).
    rewrite (@on_new_chat_with_webhook _ requests_post w pid u m Hne). cbv zeta.
    destruct (fst (post_webhook _ _ _ _)) as [r|e]; cbn;
      repeat split; eauto.
Qed.

Lemma test_webhook_with_url (w : window'') :
  strip (webhook_edit w) <> [] ->
  test'' w =
  match fst (post'' (strip (webhook_edit w)) TEST_TEXT w) with
  | Ok r =>
      (Ok tt,
       with_log (with_post w (strip (webhook_edit w)) TEST_TEXT)
         [if fst r then LOG_TEST_SENT else LOG_TEST_ERROR ++ snd r])
  | Raised e => (Raised e, with_post w (strip (webhook_edit w)) TEST_TEXT)
  end.
Proof.
  intros Hurl. unfold test_webhook, bind, gets. cbn [fst snd].
  destruct (strip (webhook_edit w)) as [|c url'] eqn:E; [congruence|].
  unfold pystr in *.
  generalize (post_webhook_state requests_post w (c :: url') TEST_TEXT).
  destruct (post_webhook requests_post (c :: url') TEST_TEXT w)
    as [[r|e] w2]; cbn [fst snd]; intros ->; [|reflexivity].
  destruct r as [[|] reason]; cbn [fst snd]; now rewrite append_log_run.
Qed.

(** X14: the webhook test with a blank field asks for a webhook in the log
    and makes no request; with a webhook it makes one request, to the
    trimmed address and with the fixed test text, and logs the outcome. *)
Theorem X14_test_webhook (w : window'') :
  (strip (webhook_edit w) = [] ->
   test'' w = (Ok tt, with_log w [LOG_TEST_EMPTY])) /\
  (strip (webhook_edit w) <> [] ->
   http_posts (snd (test'' w)) =
     http_posts w ++ [(strip (webhook_edit w), TEST_TEXT)] /\
   forall ok reason,
     fst (post'' (strip (webhook_edit w)) TEST_TEXT w) = Ok (ok, reason) ->
     test'' w =
     (Ok tt,
      with_log (with_post w (strip (webhook_edit w)) TEST_TEXT)
        [if ok then LOG_TEST_SENT else LOG_TEST_ERROR ++ reason])).
Proof.
  split.
  - intros E. unfold test_webhook, bind, gets. cbn [fst snd]. now rewrite E.
  - intros Hurl. rewrite (@test_webhook_with_url w Hurl). split.
    + now destruct (fst (post_webhook _ _ _ _)).
    + intros ok reason ->. reflexivity.
Qed.

Lemma start_watching_ok (w : window'') (x : PyFloat) :
  file_edit w <> [] ->
  os_path_exists (file_edit w) = true ->
  float_of_str (poll_text w) = Some x ->
  start'' w = (Ok tt, started w x).
Proof.
  intros Hp He Hf. unfold poll_text in Hf.
  unfold start_watching, bind, gets, float, started. cbn [fst snd].
  rewrite He. destruct (file_edit w) as [|c path] eqn:Ef; [congruence|].
  cbn [orb negb]. rewrite Hf. cbn. now rewrite Ef.
Qed.

(** X15: a start with a path that exists and a poll interval that [float]
    reads creates the worker for that path and interval, starts its thread
    and only this one, sets the button to the stop text and logs one line;
    the session is running. *)
Theorem X15_start_watching_starts (w : window'') (x : PyFloat) :
  file_edit w <> [] ->
  os_path_exists (file_edit w) = true ->
  float_of_str (poll_text w) = Some x ->
  start'' w =
  (Ok tt,
   mkWindow (file_edit w) (webhook_edit w) (template_edit w)
     (py "Detener vigilancia") (config_poll_interval w)
     (Some (mkWorker (file_edit w) x)) true
     (app_log w ++ [py "Vigilancia iniciada."])
     (threads_started w ++ [mkWorker (file_edit w) x]) (http_posts w)) /\
  session_state (snd (start'' w)) = Running.
Proof.
  intros Hp He Hf. rewrite (@start_watching_ok w x Hp He Hf).
  split; reflexivity.
Qed.

(** X16: when [float] cannot read the poll interval of the configuration,
    the start raises [ValueError] and the window is as before: no worker, no
    thread, no log line. *)
Theorem X16_start_watching_bad_interval (w : window'') :
  file_edit w <> [] ->
  os_path_exists (file_edit w) = true ->
  float_of_str (poll_text w) = None ->
  snd (start'' w) = w /\
  exists e, fst (start'' w) = Raised e /\ exn_class e = ValueError.
Proof.
  intros Hp He Hf. unfold poll_text in Hf.
  unfold start_watching, bind, gets, float. cbn [fst snd].
  rewrite He. destruct (file_edit w) as [|c path] eqn:Ef; [congruence|].
  cbn [orb negb]. rewrite Hf. cbn. split; [reflexivity | eauto].
Qed.

(** X17: after [stop_watching] the session is idle and the window holds no
    worker; no thread is started and nothing is posted.  Without a worker
    nothing changes at all. *)
Theorem X17_stop_watching (w : window'') :
  fst (stop'' w) = Ok tt /\
  tail_worker (snd (stop'' w)) = None /\
  session_state (snd (stop'' w)) = Idle /\
  threads_started (snd (stop'' w)) = threads_started w /\
  http_posts (snd (stop'' w)) = http_posts w /\
  (tail_worker w = None -> snd (stop'' w) = w) /\
  (tail_worker w <> None ->
   app_log (snd (stop'' w)) = app_log w ++ [py "Vigilancia detenida."] /\
   start_btn (snd (stop'' w)) = py "Iniciar vigilancia").
Proof.
  unfold stop_watching, bind, gets. cbn [fst snd].
  destruct (tail_worker w) as [t|] eqn:E; cbn.
  - do 5 (split; [reflexivity|]). split; [discriminate|].
    intros _. split; reflexivity.
  - unfold session_state. rewrite E.
    do 5 (split; [reflexivity|]). split; [reflexivity|].
    intros H. now destruct H.
Qed.


End SessionFacts.

(** ** Concrete windows for the runs above *)

Lemma X12_on_new_chat_posts_rendered_content_witness :
  let rp := reply_status 404 (py "Not Found") in
  let w := demo_window (py "log.txt") (py " https://hook ") in
  exists ok reason,
    fst (post_webhook rp (py "https://hook") (py "Steam - Zed: hi")
           (with_log w [LOG_PREPARING ++ py "Steam - Zed: hi"])) =
      Ok (ok, reason) /\
    on_new_chat rp (py "Steam_1") (py "Zed") (py "hi") w =
    (Ok tt,
     with_log (with_post w (py "https://hook") (py "Steam - Zed: hi"))
       [LOG_PREPARING ++ py "Steam - Zed: hi";
        if ok then LOG_SENT else LOG_SEND_ERROR ++ reason]).
Proof.
  apply (@X12_on_new_chat_posts_rendered_content unit
           (reply_status 404 (py "Not Found"))
           (demo_window (py "log.txt") (py " https://hook "))
           (py "Steam_1") (py "Zed") (py "hi")).
  - vm_compute. discriminate.
  - intros h a b e H. discriminate H.
Defined.

Lemma X15_start_watching_starts_witness :
  let fl := fun _ : pystr => Some tt in
  let ex := fun _ : pystr => true in
  let w := demo_window (py "log.txt") [] in
  start_watching fl ex w =
  (Ok tt,
   mkWindow (file_edit w) (webhook_edit w) (template_edit w)
     (py "Detener vigilancia") (config_poll_interval w)
     (Some (mkWorker (file_edit w) tt)) true
     (app_log w ++ [py "Vigilancia iniciada."])
     (threads_started w ++ [mkWorker (file_edit w) tt]) (http_posts w)) /\
  session_state (snd (start_watching fl ex w)) = Running.
Proof.
  apply (@X15_start_watching_starts unit (fun _ : pystr => Some tt)
           (fun _ : pystr => true) (demo_window (py "log.txt") []) tt).
  - vm_compute. discriminate.
  - reflexivity.
  - reflexivity.
Defined.

Lemma X16_start_watching_bad_interval_witness :
  let fl := fun _ : pystr => @None unit in
  let ex := fun _ : pystr => true in
  let w := demo_window (py "log.txt") [] in
  snd (start_watching fl ex w) = w /\
  exists e, fst (start_watching fl ex w) = Raised e /\ exn_class e = ValueError.
Proof.
  apply (@X16_start_watching_bad_interval unit (fun _ : pystr => @None unit)
           (fun _ : pystr => true) (demo_window (py "log.txt") [])).
  - vm_compute. discriminate.
  - reflexivity.
  - reflexivity.
Defined.


(** ** The line source *)

Section LineSource.

Lemma take_line_split s :
  s = take_line s ++ skipn (List.length (take_line s)) s.
Proof.
  induction s as [|c s IH]; [reflexivity|].
  cbn [take_line]. destruct (N.eqb c NEWLINE); cbn; [reflexivity|].
  now rewrite <- IH.
Qed.

Lemma take_line_length s : List.length (take_line s) <= List.length s.
Proof.
  rewrite (take_line_split s) at 2. rewrite length_app. lia.
Qed.

(** A complete line is read as a whole, with its newline. *)
Lemma take_line_line l r :
  mem NEWLINE l = false -> take_line (l ++ NEWLINE :: r) = l ++ [NEWLINE].
Proof.
  induction l as [|c l IH]; cbn [mem app take_line]; intros H.
  - now rewrite N.eqb_refl.
  - apply orb_false_iff in H as [Hc Hl]. rewrite N.eqb_sym in Hc.
    now rewrite Hc, IH.
Qed.

(** Text without newline is read as it stands. *)
Lemma take_line_partial l : mem NEWLINE l = false -> take_line l = l.
Proof.
  induction l as [|c l IH]; cbn [mem take_line]; intros H; [reflexivity|].
  apply orb_false_iff in H as [Hc Hl]. rewrite N.eqb_sym in Hc.
  now rewrite Hc, IH.
Qed.

Lemma unread_appended f data :
  file_wf f -> unread (appended data f) = unread f ++ data.
Proof.
  unfold file_wf, unread, appended. cbn. intros H.
  rewrite skipn_app.
  replace (file_pos f - List.length (file_text f)) with 0 by lia.
  reflexivity.
Qed.

Lemma readline_unread f :
  file_wf f ->
  fst (readline f) = take_line (unread f) /\
  unread (snd (readline f)) =
    skipn (List.length (take_line (unread f))) (unread f) /\
  file_wf (snd (readline f)).
Proof.
  unfold file_wf, unread, readline. cbn. intros H. repeat split.
  - rewrite Nat.add_comm. now rewrite skipn_skipn.
  - generalize (take_line_length (skipn (file_pos f) (file_text f))).
    rewrite length_skipn. lia.
Qed.

Lemma appended_wf f data : file_wf f -> file_wf (appended data f).
Proof.
  unfold file_wf, appended. cbn. rewrite length_app. lia.
Qed.

(** The loop depends on the file through the unread text only. *)
Lemma tail_loop_from sleep ticks :
  forall f, file_wf f ->
    tail_loop sleep f ticks = tail_from sleep (unread f) ticks.
Proof.
  induction ticks as [|t ticks IH]; intros f Hf; [reflexivity|].
  destruct t as [data|e]; [|reflexivity].
  cbn [tail_loop tail_from].
  destruct (readline_unread (appended_wf data Hf)) as (H1 & H2 & H3).
  rewrite (unread_appended data Hf) in H1, H2.
  destruct (readline (appended data f)) as [line f'] eqn:E.
  cbn [fst snd] in *. subst line. rewrite <- H2.
  destruct (take_line (unread f ++ data)); [|now rewrite IH].
  destruct sleep; [reflexivity | now rewrite IH].
Qed.

Lemma seek_end_unread f : file_wf (seek_end f) /\ unread (seek_end f) = [].
Proof.
  unfold file_wf, unread, seek_end. cbn. split; [lia | apply skipn_all].
Qed.

Lemma tail_from_idle n : tail_from None [] (repeat (Appended []) n) = [].
Proof. induction n; [reflexivity | exact IHn]. Qed.

Lemma lstrip_app_keeps s t :
  lstrip s <> [] -> lstrip (s ++ t) = lstrip s ++ t.
Proof.
  induction s as [|c s IH]; cbn [lstrip app]; [congruence|].
  destruct (isspace c); auto.
Qed.

(** A white space character at the end of a line does not count. *)
Lemma strip_trailing_space s c : isspace c = true -> strip (s ++ [c]) = strip s.
Proof.
  intros Hc. destruct (lstrip s) as [|d r] eqn:E.
  - assert (Hs : forallb isspace (s ++ [c]) = true).
    { rewrite forallb_app, (lstrip_nil_all_space _ E). cbn. now rewrite Hc. }
    rewrite (strip_blank _ Hs). symmetry. apply strip_blank.
    now apply lstrip_nil_all_space.
  - unfold strip. rewrite lstrip_app_keeps by (rewrite E; discriminate).
    rewrite rev_app_distr. cbn [rev app lstrip]. now rewrite Hc.
Qed.

Lemma run_line_newline l : run_line (l ++ [NEWLINE]) = run_line l.
Proof.
  unfold run_line. now rewrite strip_trailing_space.
Qed.

Lemma take_line_first l r :
  mem NEWLINE l = false -> take_line ((l ++ [NEWLINE]) ++ r) = l ++ [NEWLINE].
Proof.
  intros H. rewrite <- app_assoc. now apply take_line_line.
Qed.

(** An iteration that finds a complete line handles it, whatever [sleep]
    would do. *)
Lemma tail_from_line sleep l rest data ticks :
  mem NEWLINE l = false ->
  tail_from sleep [] (Appended ((l ++ [NEWLINE]) ++ rest) :: ticks) =
    run_line l ++ tail_from sleep rest ticks /\
  tail_from sleep ((l ++ [NEWLINE]) ++ rest) (Appended data :: ticks) =
    run_line l ++ tail_from sleep (rest ++ data) ticks.
Proof.
  intros Hl. cbn [tail_from app]. rewrite <- (app_assoc _ rest data).
  rewrite !(fun r => @take_line_first l r Hl), !skipn_length_app.
  destruct (l ++ [NEWLINE]) eqn:E; [now destruct l|].
  now rewrite <- E, run_line_newline.
Qed.

(** Text without newline is read in one piece, whatever [sleep] would do. *)
Lemma tail_from_partial sleep a ticks :
  a <> [] -> mem NEWLINE a = false ->
  tail_from sleep [] (Appended a :: ticks) =
  run_line a ++ tail_from sleep [] ticks.
Proof.
  intros Ha Hn. cbn [tail_from app].
  rewrite (@take_line_partial a Hn), skipn_all.
  destruct a; [congruence | reflexivity].
Qed.

Lemma tail_from_burst sleep lines :
  Forall (fun l => mem NEWLINE l = false) lines ->
  forall n, List.length lines <= n ->
    sleep = None \/ List.length lines = n ->
    tail_from sleep (burst lines) (repeat (Appended []) n) =
    flat_map run_line lines.
Proof.
  induction 1 as [|l lines Hl _ IH]; intros n Hn Hs.
  - destruct Hs as [-> | Hs]; [apply tail_from_idle|].
    cbn in Hs. now subst n.
  - destruct n as [|n]; [cbn in Hn; lia|].
    change (burst (l :: lines)) with ((l ++ [NEWLINE]) ++ burst lines).
    cbn [repeat flat_map].
    rewrite (proj2 (@tail_from_line sleep l (burst lines) [] _ Hl)), app_nil_r.
    rewrite IH; [reflexivity | cbn in Hn; lia |].
    destruct Hs as [Hs | Hs]; [now left | right]. cbn in Hs. lia.
Qed.

(** X19: what the file holds when the watch starts is never replayed: the
    signals are the same as for a file that was empty at the start; and when
    [time.sleep] accepts the interval, only the start line is emitted as
    long as nothing is appended. *)
Theorem X19_old_lines_are_not_replayed
  (sleep : option exn) (path old : pystr) (ticks : list tick) (n : nat) :
  TailWorker_run sleep path (Opened old) ticks =
    TailWorker_run sleep path (Opened []) ticks /\
  TailWorker_run None path (Opened old) (repeat (Appended []) n) =
    [SigLog (py "Iniciando vigilancia de: " ++ path)].
Proof.
  unfold TailWorker_run.
  destruct (seek_end_unread (mkFile old 0)) as [W U].
  destruct (seek_end_unread (mkFile [] 0)) as [W' U'].
  rewrite !tail_loop_from, U, ?U' by assumption.
  split; [reflexivity|]. now rewrite tail_from_idle.
Qed.

(** X20: complete lines appended in one piece are handled one for each
    iteration, in the order written, each as a line of its own: after as
    many iterations as there are lines, and after more of them when
    [time.sleep] accepts the interval. *)
Theorem X20_lines_are_handled_in_order
  (sleep : option exn) (path old : pystr) (lines : list pystr) (n : nat) :
  Forall (fun l => mem NEWLINE l = false) lines ->
  List.length lines <= S n ->
  sleep = None \/ List.length lines = S n ->
  TailWorker_run sleep path (Opened old)
    (Appended (burst lines) :: repeat (Appended []) n) =
  SigLog (py "Iniciando vigilancia de: " ++ path) :: flat_map run_line lines.
Proof.
  intros Hl Hn Hs. unfold TailWorker_run. f_equal.
  destruct (seek_end_unread (mkFile old 0)) as [W U].
  rewrite tail_loop_from, U by assumption.
  rewrite <- (tail_from_burst Hl Hn Hs).
  cbn [repeat tail_from app]. now rewrite app_nil_r.
Qed.

(** X21: a line that reaches the file in two pieces, the first one read
    before the second is written, is handled as two lines and not as the
    line it is. *)
Theorem X21_line_written_in_two_pieces
  (sleep : option exn) (path old a b : pystr) :
  a <> [] -> mem NEWLINE a = false -> mem NEWLINE b = false ->
  TailWorker_run sleep path (Opened old)
    [Appended a; Appended (b ++ [NEWLINE])] =
    SigLog (py "Iniciando vigilancia de: " ++ path) ::
    run_line a ++ run_line b /\
  TailWorker_run sleep path (Opened old) [Appended (a ++ b ++ [NEWLINE])] =
    SigLog (py "Iniciando vigilancia de: " ++ path) :: run_line (a ++ b).
Proof.
  intros Ha Hna Hnb. unfold TailWorker_run.
  destruct (seek_end_unread (mkFile old 0)) as [W U].
  rewrite !tail_loop_from, U by assumption.
  split; f_equal.
  - rewrite (@tail_from_partial sleep a _ Ha Hna).
    rewrite <- (app_nil_r (b ++ [NEWLINE])).
    rewrite (proj1 (@tail_from_line sleep b [] [] [] Hnb)).
    cbn [tail_from]. now rewrite app_nil_r.
  - assert (Hab : mem NEWLINE (a ++ b) = false) by now rewrite mem_app, Hna, Hnb.
    rewrite app_assoc, <- (app_nil_r ((a ++ b) ++ [NEWLINE])).
    rewrite (proj1 (@tail_from_line sleep (a ++ b) [] [] [] Hab)).
    cbn [tail_from]. now rewrite app_nil_r.
Qed.


(** X23: signals are only ever added: the signals of a run are the start
    of the signals of every longer run. *)
Theorem X23_signals_are_only_added
  (sleep : option exn) (path : pystr) (o : open_result)
  (ticks more : list tick) :
  exists rest,
    TailWorker_run sleep path o (ticks ++ more) =
    TailWorker_run sleep path o ticks ++ rest.
Proof.
  unfold TailWorker_run. destruct o as [text| |e].
  - generalize (seek_end (mkFile text 0)).
    induction ticks as [|t ticks IH]; intros f.
    + cbn [app]. now exists (tail_loop sleep f more).
    + destruct t as [d|e'].
      * cbn [app tail_loop].
        destruct (readline (appended d f)) as [line f'].
        destruct (IH f') as [rest Hrest].
        cbn [app] in *. inversion Hrest as [H].
        destruct line as [|c line].
        -- destruct sleep as [e'|].
           ++ exists []. now rewrite app_nil_r.
           ++ exists rest. now rewrite H.
        -- exists rest. rewrite H. now rewrite <- app_assoc.
      * exists []. cbn [app tail_loop]. now rewrite app_nil_r.
  - exists []. now rewrite app_nil_r.
  - exists []. now rewrite app_nil_r.
Qed.

(** X24: when [time.sleep] does not accept the interval of the worker, the
    first read that finds nothing new ends the loop: after the start line
    comes the error line of the exception (for an [Exception]), whatever is
    appended later. *)
Theorem X24_rejected_interval_ends_the_loop
  (PyFloat : Type) (time_sleep : PyFloat -> option exn)
  (self : TailWorker PyFloat) (e : exn) (old : pystr) (later : list tick) :
  time_sleep (poll_interval self) = Some e ->
  TailWorker_run_of time_sleep self (Opened old) (Appended [] :: later) =
  SigLog (py "Iniciando vigilancia de: " ++ filepath self) :: tail_error e.
Proof.
  intros Hs. unfold TailWorker_run_of, TailWorker_run. rewrite Hs. f_equal.
  destruct (seek_end_unread (mkFile old 0)) as [W U].
  rewrite tail_loop_from, U by assumption. reflexivity.
Qed.

End LineSource.

(** ** Concrete runs of the line source *)

Example chat_line_in_two_pieces_is_lost :
  new_chats
    (TailWorker_run None (py "log.txt") (Opened (py "old"))
       [Appended (py "Chat (from 'Steam_1', e): 'Ze");
        Appended (py "d': hi" ++ [NEWLINE])]) = [] /\
  new_chats
    (TailWorker_run None (py "log.txt") (Opened (py "old"))
       [Appended (py "Chat (from 'Steam_1', e): 'Zed': hi" ++ [NEWLINE])]) =
  [mkChat (py "Steam_1") (py "Zed") (py "hi")].
Proof. split; vm_compute; reflexivity. Qed.

Example missing_file_is_reported :
  TailWorker_run None (py "log.txt") OpenNotFound [Appended (py "x")] =
  [ SigLog (py "Iniciando vigilancia de: log.txt");
    SigLog (py "El archivo no fue encontrado: log.txt") ].
Proof. vm_compute. reflexivity. Qed.

Example negative_interval_is_reported :
  TailWorker_run
    (Some (mkExn ValueError (py "sleep length must be non-negative")))
    (py "log.txt") (Opened (py "old")) [Appended []; Appended (py "x")] =
  [ SigLog (py "Iniciando vigilancia de: log.txt");
    SigLog (py "Error en TailWorker: sleep length must be non-negative") ].
Proof. vm_compute. reflexivity. Qed.

Lemma X20_lines_are_handled_in_order_witness :
  let lines :=
    [py "Chat (from 'Steam_1', e): 'Zed': hi"; []; py "INF heartbeat"] in
  let sleep := Some (mkExn ValueError (py "sleep length must be non-negative")) in
  TailWorker_run sleep (py "log.txt") (Opened (py "old line"))
    (Appended (burst lines) :: repeat (Appended []) 2) =
  SigLog (py "Iniciando vigilancia de: " ++ py "log.txt") ::
  flat_map run_line lines.
Proof.
  apply (@X20_lines_are_handled_in_order
           (Some (mkExn ValueError (py "sleep length must be non-negative")))
           (py "log.txt") (py "old line")
           [py "Chat (from 'Steam_1', e): 'Zed': hi"; []; py "INF heartbeat"]
           2).
  - repeat constructor.
  - vm_compute. lia.
  - right. reflexivity.
Defined.

Lemma X21_line_written_in_two_pieces_witness :
  let a := py "Chat (from 'Steam_1', e): 'Ze" in
  let b := py "d': hi" in
  TailWorker_run None (py "log.txt") (Opened [])
    [Appended a; Appended (b ++ [NEWLINE])] =
    SigLog (py "Iniciando vigilancia de: " ++ py "log.txt") ::
    run_line a ++ run_line b /\
  TailWorker_run None (py "log.txt") (Opened []) [Appended (a ++ b ++ [NEWLINE])] =
    SigLog (py "Iniciando vigilancia de: " ++ py "log.txt") :: run_line (a ++ b).
Proof.
  apply (@X21_line_written_in_two_pieces None (py "log.txt") []
           (py "Chat (from 'Steam_1', e): 'Ze") (py "d': hi")).
  - vm_compute. discriminate.
  - vm_compute. reflexivity.
  - vm_compute. reflexivity.
Defined.

Lemma X24_rejected_interval_ends_the_loop_witness :
  let time_sleep := fun x : Z =>
    if (x <? 0)%Z
    then Some (mkExn ValueError (py "sleep length must be non-negative"))
    else None in
  TailWorker_run_of time_sleep (mkWorker (py "log.txt") (-1)%Z)
    (Opened (py "old")) [Appended []; Appended (py "new")] =
  SigLog (py "Iniciando vigilancia de: " ++ py "log.txt") ::
  tail_error (mkExn ValueError (py "sleep length must be non-negative")).
Proof.
  apply (@X24_rejected_interval_ends_the_loop Z
           (fun x : Z =>
              if (x <? 0)%Z
              then Some (mkExn ValueError (py "sleep length must be non-negative"))
              else None)
           (mkWorker (py "log.txt") (-1)%Z)).
  reflexivity.
Defined.
